(** * MatrixReactionHandler: the reaction-correlation protocol

    A shallow embedding of [src/MPSInterfaceAdaptor/MatrixReactionHandler.ts]
    and the properties its specification states about it.

    - JavaScript strings are represented by their UTF-8 bytes ([string]).
      Every pattern the code matches on is an ASCII character, and no byte
      of a multi-byte UTF-8 sequence is ASCII, so matching on bytes and
      matching on UTF-16 code units select the same positions.  String
      literals are those of the source file, byte for byte.
    - JSON objects are association lists in own-property order.
    - A number that is a non-negative integer is its value in [N];
      [toString] prints it as [Number.prototype.toString] does, rounding
      to the nearest number past 2^53.
    - The chat transport ([ClientPlatform]) is an arbitrary state machine
      over a type [World]; every call to it is recorded in a trace,
      together with log lines and listener dispatches.  The lines that
      matrix-protection-suite logs on its own account, when [Value.Decode]
      fails and when a result handed to [Task] is a failure, are recorded
      apart from the handler's. *)

From Stdlib Require Import String Ascii List Bool NArith ZArith Lia.
From Stdlib Require Import Decimal DecimalString DecimalN Permutation.
Import ListNotations.
Open Scope string_scope.

(* ================================================================== *)
(** * Definitions *)
(* ================================================================== *)

(** ** JavaScript values *)

#[local] Set Warnings "-register-all".

Inductive Value : Type :=
| VUndefined
| VNull
| VBool (b : bool)
| VNumber (n : Z)
| VString (s : string)
| VArray (items : list Value)
| VObject (props : list (string * Value))
| VBuiltin (name : string).
(* [VBuiltin name] stands for the member [name] of [Object.prototype]:
   a function or object of the runtime, never [undefined]. *)

Definition Obj := list (string * Value).

(** Own property lookup. *)
Fixpoint ownProperty {A : Type} (name : string) (o : list (string * A))
  : option A :=
  match o with
  | [] => None
  | (k, v) :: rest => if String.eqb k name then Some v else ownProperty name rest
  end.

(** The members every plain object inherits from [Object.prototype]. *)
Definition objectPrototypeKeys : list string :=
  [ "constructor"; "hasOwnProperty"; "isPrototypeOf"; "propertyIsEnumerable";
    "toLocaleString"; "toString"; "valueOf"; "__proto__";
    "__defineGetter__"; "__defineSetter__";
    "__lookupGetter__"; "__lookupSetter__" ].

Definition inherited (name : string) : bool :=
  existsb (String.eqb name) objectPrototypeKeys.

Definition isSome {A : Type} (o : option A) : bool :=
  match o with Some _ => true | None => false end.

(** [name in o]: own properties first, then the prototype chain. *)
Definition hasProperty {A : Type} (name : string) (o : list (string * A))
  : bool :=
  isSome (ownProperty name o) || inherited name.

(** [o[name]] on an object. *)
Definition getProperty (o : Obj) (name : string) : Value :=
  match ownProperty name o with
  | Some v => v
  | None => if inherited name then VBuiltin name else VUndefined
  end.

(** [reactionMap[reactionKey]] *)
Definition index (o : Obj) (name : string) : Value :=
  getProperty o name.

(** [typeof v === "string"] *)
Definition isString (v : Value) : bool :=
  match v with VString _ => true | _ => false end.

(** [a && b] with a boolean left operand. *)
Definition JSand (a : bool) (b : Value) : Value :=
  if a then b else VBool false.

(** [v === undefined] *)
Definition isUndefined (v : Value) : bool :=
  match v with VUndefined => true | _ => false end.

(** [v === s] for a string literal [s]. *)
Definition strictEqString (v : Value) (s : string) : bool :=
  match v with VString t => String.eqb t s | _ => false end.

(** [v?.[name]]: optional chaining yields [undefined] on [null] and
    [undefined]; the names read this way are defined on no primitive. *)
Definition optionalMember (v : Value) (name : string) : Value :=
  match v with
  | VObject o => getProperty o name
  | _ => VUndefined
  end.

(** ** Exceptions and results *)

Inductive Exception : Type :=
| TypeError (message : string).

Inductive Outcome (A : Type) : Type :=
| Returned (a : A)
| Threw (e : Exception).
Arguments Returned {A} a.
Arguments Threw {A} e.

(** [v[name]] without optional chaining: a [TypeError] on [null] and
    [undefined].  Used for the members [key] and [event_id] only, which
    no primitive wrapper and no array defines. *)
Definition getMember (v : Value) (name : string) : Outcome Value :=
  match v with
  | VObject o => Returned (getProperty o name)
  | VUndefined | VNull =>
      Threw (TypeError ("Cannot read properties of null or undefined, reading " ++ name))
  | _ => Returned VUndefined
  end.

Definition ActionError := string.

Inductive ActionResult (A : Type) : Type :=
| Ok (ok : A)
| Err (error : ActionError).
Arguments Ok {A} ok.
Arguments Err {A} error.

Definition isError {A : Type} (r : ActionResult A) : bool :=
  match r with Ok _ => false | Err _ => true end.

Definition isOk {A : Type} (r : ActionResult A) : bool :=
  negb (isError r).

(** ** ES [Map] with string keys, in insertion order *)

Definition ItemByReactionKey := list (string * string).

(** [m.set(k, v)]: an existing key keeps its position. *)
Fixpoint Map_set {A : Type} (k : string) (v : A) (m : list (string * A))
  : list (string * A) :=
  match m with
  | [] => [(k, v)]
  | (k', v') :: rest =>
      if String.eqb k' k then (k', v) :: rest else (k', v') :: Map_set k v rest
  end.

Definition Map_keys {A : Type} (m : list (string * A)) : list string := map fst m.

(** [new Map(entries)] *)
Definition Map_new {A : Type} (entries : list (string * A)) : list (string * A) :=
  fold_left (fun acc kv => Map_set (fst kv) (snd kv) acc) entries [].

(** [Object.entries(o)] of an object given in own-property order. *)
Definition Object_entries {A : Type} (o : list (string * A)) : list (string * A) := o.

(** [items.reduce((acc, item, index) => f(acc, item, index), init)] *)
Fixpoint reduceFrom {A B : Type} (i : N) (f : B -> A -> N -> B)
  (items : list A) (acc : B) : B :=
  match items with
  | [] => acc
  | item :: rest => reduceFrom (i + 1) f rest (f acc item i)
  end.

Definition reduce {A B : Type} (f : B -> A -> N -> B) (items : list A) (init : B) : B :=
  reduceFrom 0 f items init.

(** ** Symbol generator *)

(** [s.replace(/c/g, r)] for a one-character pattern. *)
Fixpoint replaceAll (c : ascii) (r : string) (s : string) : string :=
  match s with
  | EmptyString => EmptyString
  | String a rest =>
      if Ascii.eqb a c then r ++ replaceAll c r rest
      else String a (replaceAll c r rest)
  end.

(** *** Numbers

    A [number] that is a non-negative integer is given by its value.  The
    integers up to [MAX_SAFE_INTEGER] are numbers as they stand; a larger
    integer stands for the number nearest to it. *)

Definition MAX_SAFE_INTEGER : N := 9007199254740991.

(** The decimal numeral of an integer. *)
Definition decimal (n : N) : string :=
  NilZero.string_of_uint (N.to_uint n).

(** The number nearest to an integer, ties going to the even significand
    of 53 bits; [None] is [Infinity]. *)
Definition toNumber (n : N) : option N :=
  if (n <=? MAX_SAFE_INTEGER)%N then Some n
  else
    let shift := (N.log2 n - 52)%N in
    let q := N.shiftr n shift in
    let r := (n - N.shiftl q shift)%N in
    let half := N.shiftl 1 (shift - 1) in
    let q' := if (half <? r)%N || ((r =? half)%N && N.odd q) then (q + 1)%N else q in
    let x := N.shiftl q' shift in
    if (x <? 2 ^ 1024)%N then Some x else None.

Definition digitCount (n : N) : N := N.of_nat (String.length (decimal n)).

Definition distance (a b : N) : N :=
  if (a <=? b)%N then (b - a)%N else (a - b)%N.

(** [v] reads back as the number [x]. *)
Definition roundsTo (x v : N) : bool :=
  match toNumber v with
  | Some y => (y =? x)%N
  | None => false
  end.

(** The decimal value with the fewest significant digits that reads back
    as [x], trying [k], [k + 1], ... digits: of the two values of [k]
    digits around [x] the one that reads back as [x]; if both do, the
    nearer, and on a tie the one whose last digit is even. *)
Fixpoint shortestFrom (x k : N) (fuel : nat) : N :=
  match fuel with
  | O => x
  | S fuel' =>
      let p := (10 ^ (digitCount x - k))%N in
      let below := (x / p * p)%N in
      let above := (below + p)%N in
      match roundsTo x below, roundsTo x above with
      | true, true =>
          if (distance below x <? distance above x)%N then below
          else if (distance above x <? distance below x)%N then above
          else if N.even (below / p) then below else above
      | true, false => below
      | false, true => above
      | false, false => shortestFrom x (k + 1) fuel'
      end
  end.

(** Seventeen significant digits tell any two numbers apart. *)
Definition shortest (x : N) : N := shortestFrom x 1 17.

Fixpoint stripZeros (fuel : nat) (v : N) : N :=
  match fuel with
  | O => v
  | S fuel' =>
      if (0 <? v)%N && (v mod 10 =? 0)%N then stripZeros fuel' (v / 10) else v
  end.

(** Exponent notation: the significant digits, a point after the first
    when there are more, and the power of ten. *)
Definition exponential (v : N) : string :=
  let n := digitCount v in
  match decimal (stripZeros (N.to_nat n) v) with
  | String first EmptyString => String first ("e+" ++ decimal (n - 1))
  | String first rest => String first ("." ++ rest ++ "e+" ++ decimal (n - 1))
  | EmptyString => EmptyString
  end.

(** [number.toString()] of a non-negative integer.  A safe integer prints
    all its digits.  A larger number prints the shortest digits that read
    back as it, padded with zeros up to twenty-one digits and in exponent
    notation beyond. *)
Definition toString (number : N) : string :=
  match toNumber number with
  | None => "Infinity"
  | Some x =>
      if (x <=? MAX_SAFE_INTEGER)%N then decimal x
      else
        let v := shortest x in
        if (digitCount v <=? 21)%N then decimal v else exponential v
  end.

Definition numberToEmoji (number : N) : string :=
  let key := toString number in
  replaceAll "9" "9Ô∏è‚É£"
    (replaceAll "8" "8Ô∏è‚É£"
    (replaceAll "7" "7Ô∏è‚É£"
    (replaceAll "6" "6Ô∏è‚É£"
    (replaceAll "5" "5Ô∏è‚É£"
    (replaceAll "4" "4Ô∏è‚É£"
    (replaceAll "3" "3Ô∏è‚É£"
    (replaceAll "2" "2Ô∏è‚É£"
    (replaceAll "1" "1Ô∏è‚É£"
    (replaceAll "0" "0Ô∏è‚É£" key))))))))).

Definition createItemizedReactionMap (items : list string) : ItemByReactionKey :=
  reduce (fun acc item index =>
            let key := numberToEmoji (index + 1) in
            Map_set key item acc)
         items [].

(** The specification's reading of [numberToSymbol]: one symbol per
    decimal digit, most significant digit first; the symbol of a digit is
    what the source puts in its place. *)
Definition keycap (digit : ascii) : string :=
  String digit "Ô∏è‚É£".

Fixpoint keycaps (digits : uint) : string :=
  match digits with
  | Nil => ""
  | D0 d => keycap "0" ++ keycaps d
  | D1 d => keycap "1" ++ keycaps d
  | D2 d => keycap "2" ++ keycaps d
  | D3 d => keycap "3" ++ keycaps d
  | D4 d => keycap "4" ++ keycaps d
  | D5 d => keycap "5" ++ keycaps d
  | D6 d => keycap "6" ++ keycaps d
  | D7 d => keycap "7" ++ keycaps d
  | D8 d => keycap "8" ++ keycaps d
  | D9 d => keycap "9" ++ keycaps d
  end.

Definition numberToSymbol_spec (n : N) : string :=
  keycaps (N.to_uint n).

(** The specification's reading of [itemize]: position [i] carries the
    symbol of [i + 1] and the item found at [i]. *)
Fixpoint itemizeFrom_spec (i : N) (items : list string) : ItemByReactionKey :=
  match items with
  | [] => []
  | item :: rest => (numberToEmoji (i + 1), item) :: itemizeFrom_spec (i + 1) rest
  end.

Definition itemize_spec (items : list string) : ItemByReactionKey :=
  itemizeFrom_spec 0 items.

(** ** Events, annotations and the listener interface *)

Definition StringRoomID := string.
Definition StringUserID := string.
Definition StringEventID := string.

Record RoomEvent : Type := mkRoomEvent {
  room_id : StringRoomID;
  event_id : StringEventID;
  sender : StringUserID;
  content : Obj
}.

Definition REACTION_ANNOTATION_KEY : string :=
  "ge.applied-langua.ge.draupnir.reaction_handler".

(** What [ReactionAnnotatedContent] holds under the reserved key, once
    checked: the decoder hands the value over as it finds it. *)
Record Annotation : Type := mkAnnotation {
  reaction_map : Obj;
  name : string;
  additional_context : Value
}.

(** A line terminator: LF, CR, U+2028 or U+2029. *)
Fixpoint hasLineTerminator (s : string) : bool :=
  match s with
  | EmptyString => false
  | String a rest =>
      Ascii.eqb a "010" || Ascii.eqb a "013"
      || String.prefix (String "226" (String "128" (String "168" EmptyString))) s
      || String.prefix (String "226" (String "128" (String "169" EmptyString))) s
      || hasLineTerminator rest
  end.

(** The key pattern of [Type.Record(Type.String(), ...)], one line of any
    characters from start to end: a string without a line terminator. *)
Definition matchesStringPattern (k : string) : bool :=
  negb (hasLineTerminator k).

(** [Type.Record(Type.String(), Type.String())] on the own properties of
    an object: a value under a key that matches the pattern must be a
    string; other properties are additional and go unchecked. *)
Fixpoint checkStringRecord (props : Obj) : bool :=
  match props with
  | [] => true
  | (k, v) :: rest =>
      (if matchesStringPattern k then isString v else true)
      && checkStringRecord rest
  end.

(** The check and the answer of [Value.Decode(ReactionAnnotatedContent,
    content)]: the reserved key must hold an object with a string record
    [reaction_map] and a string [name]; [additional_context] is optional
    and unconstrained.  The error names the path of the first mismatch. *)
Definition Decode_ReactionAnnotatedContent (content : Obj)
  : ActionResult Annotation :=
  match getProperty content REACTION_ANNOTATION_KEY with
  | VObject annotation =>
      match getProperty annotation "reaction_map" with
      | VObject entries =>
          if checkStringRecord entries then
            match getProperty annotation "name" with
            | VString listenerName =>
                Ok {| reaction_map := entries;
                      name := listenerName;
                      additional_context :=
                        getProperty annotation "additional_context" |}
            | _ => Err ("/" ++ REACTION_ANNOTATION_KEY ++ "/name")
            end
          else Err ("/" ++ REACTION_ANNOTATION_KEY ++ "/reaction_map")
      | _ => Err ("/" ++ REACTION_ANNOTATION_KEY ++ "/reaction_map")
      end
  | _ => Err ("/" ++ REACTION_ANNOTATION_KEY)
  end.

(** What the schema asks of content, read off its declaration: the
    reserved key holds an object whose [reaction_map] is an object and
    whose [name] is a string; in [reaction_map] every value is a string,
    except that a key with a line terminator does not match the key
    pattern and leaves its value unconstrained. *)
Definition hasAnnotationShape (content : Obj) : Prop :=
  exists (annotation entries : Obj) (listenerName : string),
    getProperty content REACTION_ANNOTATION_KEY = VObject annotation /\
    getProperty annotation "reaction_map" = VObject entries /\
    (forall k v, In (k, v) entries -> hasLineTerminator k = false ->
                 exists s, v = VString s) /\
    getProperty annotation "name" = VString listenerName.

(** The last argument handed to a listener.  [ReactionListener] declares a
    [RoomEvent] there, but [emit] is [EventEmitter]'s untyped one, so the
    slot can also receive the result object that [getEvent] returned. *)
Inductive EventArgument : Type :=
| TheEvent (event : RoomEvent)
| ResultObject (result : ActionResult RoomEvent).

(** The arguments of one [emit], after the listener name. *)
Record ListenerArguments : Type := mkListenerArguments {
  key : string;
  item : Value;
  additionalContext : Value;
  reactionMap : list (string * Value);
  annotatedEvent : EventArgument
}.

(** ** Effects *)

Inductive LogLevel : Type := LogInfo | LogError.

(** What matrix-protection-suite reports on its own account. *)
Inductive LibraryReport : Type :=
| DecodeFailed
| TaskFailed.
(* [DecodeFailed]: written while [Value.Decode] builds its failure.
   [TaskFailed]: written by [Task] for a result that is a failure. *)

Inductive Effect : Type :=
| GetEvent (roomID : StringRoomID) (eventID : StringEventID)
| SendReaction (roomID : StringRoomID) (eventID : StringEventID)
    (reaction : string) (result : ActionResult StringEventID)
| ForEachRelation (roomID : StringRoomID) (eventID : StringEventID)
    (relationType eventType : string)
| RedactEvent (roomID : StringRoomID) (eventID : StringEventID)
    (reason : option string) (result : ActionResult unit)
| Log (level : LogLevel) (message : string)
| LibraryLog (level : LogLevel) (report : LibraryReport)
| Emit (eventName : string) (arguments : ListenerArguments).
(* [Log] is a line of this file's logger.  [LibraryLog level report] is a
   line that matrix-protection-suite writes on a logger of its own; its
   text is the library's.  Effects are recorded in the order in which the
   handler makes the calls: the answer to a redaction that nobody awaits,
   and the line [Task] writes for it, are recorded with the call. *)

Record Run (World A : Type) : Type := mkRun {
  outcome : Outcome A;
  world : World;
  trace : list Effect
}.
Arguments mkRun {World A} outcome world trace.
Arguments outcome {World A} r.
Arguments world {World A} r.
Arguments trace {World A} r.

(** An asynchronous operation: it runs against the world it finds and
    leaves the world the transport made of it. *)
Definition Task (World A : Type) : Type := World -> Run World A.

Definition ret {World A : Type} (a : A) : Task World A :=
  fun w => mkRun (Returned a) w [].

Definition bind {World A B : Type} (m : Task World A) (k : A -> Task World B)
  : Task World B :=
  fun w =>
    let r := m w in
    match outcome r with
    | Returned a =>
        let r' := k a (world r) in
        mkRun (outcome r') (world r') (trace r ++ trace r')
    | Threw e => mkRun (Threw e) (world r) (trace r)
    end.

(** Records one effect. *)
Definition perform {World : Type} (e : Effect) : Task World unit :=
  fun w => mkRun (Returned tt) w [e].

(** A synchronous step that returns or throws. *)
Definition lift {World A : Type} (o : Outcome A) : Task World A :=
  fun w => mkRun o w [].

Declare Scope task_scope.
Delimit Scope task_scope with task.
Notation "x <- m ;; k" := (bind m (fun x => k))
  (at level 61, m at next level, right associativity) : task_scope.
Notation "m ;; k" := (bind m (fun _ => k))
  (at level 61, right associativity) : task_scope.
Open Scope task_scope.

(** [log.info(message)] and [log.error(message, error)]; the error object
    passed along is left out of the record. *)
Definition log_info {World : Type} (message : string) : Task World unit :=
  perform (Log LogInfo message).
Definition log_error {World : Type} (message : string) : Task World unit :=
  perform (Log LogError message).

(** [Value.Decode(ReactionAnnotatedContent, content)].  A failure is a
    [DecodeException], which the library reports when it builds it: two
    lines at error level, before the caller sees the result. *)
Definition Value_Decode {World : Type} (content : Obj)
  : Task World (ActionResult Annotation) :=
  match Decode_ReactionAnnotatedContent content with
  | Ok decoded => ret (Ok decoded)
  | Err error =>
      perform (LibraryLog LogError DecodeFailed) ;;
      perform (LibraryLog LogError DecodeFailed) ;;
      ret (Err error)
  end.

(** [void Task(promise)]: nobody waits for the answer; when it is a
    failure the library reports it in one line at error level. *)
Definition voidTask {World A : Type} (promise : Task World (ActionResult A))
  : Task World unit :=
  result <- promise ;;
  if isError result then perform (LibraryLog LogError TaskFailed) else ret tt.

(** ** The client platform *)

(** The capabilities the handler consumes.  Each call may depend on and
    change the state of the transport.  [forEachRelation] answers with the
    relation events it passes to the callback, in order, and with its own
    result. *)
Record ClientPlatform (World : Type) : Type := mkClientPlatform {
  getEvent :
    StringRoomID -> StringEventID -> World -> ActionResult RoomEvent * World;
  sendReaction :
    StringRoomID -> StringEventID -> string ->
    World -> ActionResult StringEventID * World;
  forEachRelation :
    StringRoomID -> StringEventID -> string -> string ->
    World -> (list RoomEvent * ActionResult unit) * World;
  redactEvent :
    StringRoomID -> StringEventID -> option string ->
    World -> ActionResult unit * World
}.
Arguments getEvent {World} c _ _ _.
Arguments sendReaction {World} c _ _ _ _.
Arguments forEachRelation {World} c _ _ _ _ _.
Arguments redactEvent {World} c _ _ _ _.

(** [Value.Check(ReactionEvent, event)].  The schema belongs to
    matrix-protection-suite.  It is a type guard: an event it accepts has
    the static type [ReactionEvent], whose [m.relates_to] is either missing
    or an object. *)
Record ReactionEventSchema : Type := mkReactionEventSchema {
  Value_Check : RoomEvent -> bool;
  Value_Check_relates_to :
    forall event, Value_Check event = true ->
      match getProperty (content event) "m.relates_to" with
      | VUndefined | VObject _ => True
      | _ => False
      end
}.

Record MatrixReactionHandler (World : Type) : Type := mkMatrixReactionHandler {
  roomID : StringRoomID;
  clientUserID : StringUserID;
  clientPlatform : ClientPlatform World
}.
Arguments roomID {World} m.
Arguments clientUserID {World} m.
Arguments clientPlatform {World} m.

(** ** The handler *)

Section Handler.

Context {World : Type}.
Variable ReactionEvent : ReactionEventSchema.

Definition await_getEvent (this : MatrixReactionHandler World)
  (room : StringRoomID) (eventID : StringEventID)
  : Task World (ActionResult RoomEvent) :=
  fun w =>
    let answer := getEvent (clientPlatform this) room eventID w in
    mkRun (Returned (fst answer)) (snd answer) [GetEvent room eventID].

Definition await_sendReaction (this : MatrixReactionHandler World)
  (room : StringRoomID) (eventID : StringEventID) (reaction : string)
  : Task World (ActionResult StringEventID) :=
  fun w =>
    let answer := sendReaction (clientPlatform this) room eventID reaction w in
    mkRun (Returned (fst answer)) (snd answer)
          [SendReaction room eventID reaction (fst answer)].

(** The redaction request is issued when [redactEvent] is called. *)
Definition call_redactEvent (this : MatrixReactionHandler World)
  (room : StringRoomID) (eventID : StringEventID) (reason : option string)
  : Task World (ActionResult unit) :=
  fun w =>
    let answer := redactEvent (clientPlatform this) room eventID reason w in
    mkRun (Returned (fst answer)) (snd answer)
          [RedactEvent room eventID reason (fst answer)].

Fixpoint forEachEvent (forEachCB : RoomEvent -> Task World unit)
  (events : list RoomEvent) : Task World unit :=
  match events with
  | [] => ret tt
  | event :: rest => forEachCB event ;; forEachEvent forEachCB rest
  end.

(** [forEachRelation(room, eventID, {relationType, eventType, forEachCB})]:
    the callback runs on each enumerated event, then the enumeration's
    own result comes back. *)
Definition await_forEachRelation (this : MatrixReactionHandler World)
  (room : StringRoomID) (eventID : StringEventID)
  (relationType eventType : string)
  (forEachCB : RoomEvent -> Task World unit)
  : Task World (ActionResult unit) :=
  fun w =>
    let answer :=
      forEachRelation (clientPlatform this) room eventID relationType eventType w in
    (perform (ForEachRelation room eventID relationType eventType) ;;
     forEachEvent forEachCB (fst (fst answer)) ;;
     ret (snd (fst answer))) (snd answer).

Definition emit (eventName : string) (arguments : ListenerArguments)
  : Task World unit :=
  perform (Emit eventName arguments).

Definition handleEvent (this : MatrixReactionHandler World)
  (room : StringRoomID) (event : RoomEvent) : Task World unit :=
  if negb (String.eqb room (roomID this)) then ret tt else
  if String.eqb (sender event) (clientUserID this) then ret tt else
  if negb (Value_Check ReactionEvent event) then ret tt else
  let relatesTo := getProperty (content event) "m.relates_to" in
  if isUndefined relatesTo then ret tt else
  reactionKey <- lift (getMember relatesTo "key") ;;
  relatedEventId <- lift (getMember relatesTo "event_id") ;;
  match relatedEventId, reactionKey with
  | VString relatedEventId, VString reactionKey =>
      annotatedEvent <- await_getEvent this room relatedEventId ;;
      match annotatedEvent with
      | Err error => log_error "Unable to get annotated event"
      | Ok ok =>
          if negb (hasProperty REACTION_ANNOTATION_KEY (content ok))
          then ret tt (* this event isn't annotated. *)
          else
            decodedAnnotation <- Value_Decode (content ok) ;;
            match decodedAnnotation with
            | Err error =>
                log_error
                  ("Unable to decode the annotation on an annotated event that was reacted to "
                     ++ relatedEventId ++ " in " ++ room)
            | Ok decodedAnnotation =>
                let reactionMap := reaction_map decodedAnnotation in
                let listenerName := name decodedAnnotation in
                let association :=
                  JSand (hasProperty reactionKey reactionMap)
                        (index reactionMap reactionKey) in
                if isUndefined association then
                  log_info
                    ("There wasn't a defined key for " ++ reactionKey
                       ++ " on event " ++ relatedEventId ++ " in " ++ room)
                else
                  emit listenerName
                    (mkListenerArguments
                       reactionKey
                       association
                       (additional_context decodedAnnotation)
                       (Map_new (Object_entries reactionMap))
                       (ResultObject annotatedEvent))
            end
      end
  | _, _ => ret tt
  end.

(** The body of the [for ... of reactionMap.keys()] loop. *)
Fixpoint addReactionsToEvent_loop (this : MatrixReactionHandler World)
  (room : StringRoomID) (eventID : StringEventID) (keys : list string)
  : Task World (ActionResult unit) :=
  match keys with
  | [] => ret (Ok tt)
  | key :: rest =>
      reactionResult <- await_sendReaction this room eventID key ;;
      match reactionResult with
      | Err error =>
          log_error ("Could not add reaction to event " ++ eventID) ;;
          ret (Err error)
      | Ok _ => addReactionsToEvent_loop this room eventID rest
      end
  end.

Definition addReactionsToEvent (this : MatrixReactionHandler World)
  (room : StringRoomID) (eventID : StringEventID)
  (reactionMap : ItemByReactionKey) : Task World (ActionResult unit) :=
  addReactionsToEvent_loop this room eventID (Map_keys reactionMap).

(** [event.content?.["m.relates_to"]?.key] *)
Definition relationKey (event : RoomEvent) : Value :=
  optionalMember (getProperty (content event) "m.relates_to") "key".

(** What the callback takes for the bot's own reactions that mark the
    event as complete: a key that is one of the two strings of the
    source's comparison. *)
Definition isTerminalMarker (key : Value) : bool :=
  strictEqString key "‚úÖ" || strictEqString key "‚ùå".

(** The [forEachCB] callback of [completePrompt]: the redaction is
    started and handed to [Task]; the callback does not see its answer. *)
Definition completePrompt_forEachCB (this : MatrixReactionHandler World)
  (room : StringRoomID) (reason : option string) (event : RoomEvent)
  : Task World unit :=
  let key := relationKey event in
  (* skip the bots own reactions that mark the event as complete *)
  if isTerminalMarker key then ret tt
  else voidTask (call_redactEvent this room (event_id event) reason).

Definition completePrompt (this : MatrixReactionHandler World)
  (room : StringRoomID) (eventID : StringEventID) (reason : option string)
  : Task World (ActionResult unit) :=
  await_forEachRelation this room eventID "m.annotation" "m.reaction"
    (completePrompt_forEachCB this room reason).

Definition cancelPrompt (this : MatrixReactionHandler World)
  (promptEvent : RoomEvent) (cancelReason : option string)
  : Task World (ActionResult unit) :=
  completeResult <-
    completePrompt this (room_id promptEvent) (event_id promptEvent)
      (Some (match cancelReason with
             | Some reason => reason
             | None => "prompt cancelled"
             end)) ;;
  if isError completeResult then ret completeResult else
  reactionResult <-
    await_sendReaction this (room_id promptEvent) (event_id promptEvent)
      ("üö´ Cancelled by " ++ sender promptEvent) ;;
  (if isError reactionResult then
     log_error ("Could not send cancelled reaction event for prompt "
                  ++ event_id promptEvent ++ " in " ++ room_id promptEvent)
   else ret tt) ;;
  ret completeResult.

End Handler.

(** ** Reading a trace *)

Definition fetchOf (e : Effect) : option (StringRoomID * StringEventID) :=
  match e with GetEvent room eventID => Some (room, eventID) | _ => None end.

Definition emitOf (e : Effect) : option (string * ListenerArguments) :=
  match e with Emit eventName arguments => Some (eventName, arguments) | _ => None end.

Definition sendOf (e : Effect)
  : option (StringRoomID * StringEventID * string * ActionResult StringEventID) :=
  match e with
  | SendReaction room eventID reaction result => Some (room, eventID, reaction, result)
  | _ => None
  end.

Definition redactionOf (e : Effect)
  : option (StringRoomID * StringEventID * option string * ActionResult unit) :=
  match e with
  | RedactEvent room eventID reason result => Some (room, eventID, reason, result)
  | _ => None
  end.

Definition enumerationOf (e : Effect)
  : option (StringRoomID * StringEventID * string * string) :=
  match e with
  | ForEachRelation room eventID relationType eventType =>
      Some (room, eventID, relationType, eventType)
  | _ => None
  end.

Definition logOf (e : Effect) : option (LogLevel * string) :=
  match e with Log level message => Some (level, message) | _ => None end.

Definition libraryLogOf (e : Effect) : option (LogLevel * LibraryReport) :=
  match e with LibraryLog level report => Some (level, report) | _ => None end.

Fixpoint collect {A : Type} (f : Effect -> option A) (t : list Effect) : list A :=
  match t with
  | [] => []
  | e :: rest =>
      match f e with
      | Some a => a :: collect f rest
      | None => collect f rest
      end
  end.

Definition fetches (t : list Effect) := collect fetchOf t.
Definition emits (t : list Effect) := collect emitOf t.
Definition sends (t : list Effect) := collect sendOf t.
Definition redactions (t : list Effect) := collect redactionOf t.
Definition enumerations (t : list Effect) := collect enumerationOf t.
Definition logs (t : list Effect) := collect logOf t.
Definition libraryLogs (t : list Effect) := collect libraryLogOf t.



(** The specification's reading of a reaction that bears one of
    [symbols]: its content relates it to another event under a key that is
    one of them. *)
Definition bearsOneOf (symbols : list string) (event : RoomEvent) : bool :=
  match getProperty (content event) "m.relates_to" with
  | VObject relatesTo =>
      match getProperty relatesTo "key" with
      | VString key => existsb (String.eqb key) symbols
      | _ => false
      end
  | _ => false
  end.

(** The specification's reading of the sweep: the transport is asked,
    from state [w], to redact each of [events] in turn; the answer to each
    request and the state the transport ends in. *)
Fixpoint redactEach {World : Type} (platform : ClientPlatform World)
  (room : StringRoomID) (reason : option string) (events : list RoomEvent)
  (w : World) : list (StringEventID * ActionResult unit) * World :=
  match events with
  | [] => ([], w)
  | event :: rest =>
      let answer := redactEvent platform room (event_id event) reason w in
      let later := redactEach platform room reason rest (snd answer) in
      ((event_id event, fst answer) :: fst later, snd later)
  end.

(** The reaction sent and whether it went through, for each attempt. *)
Definition attempted (t : list Effect) : list (string * bool) :=
  map (fun a => (snd (fst a), isOk (snd a))) (sends t).

(** What each redaction asked for, without the answer it got. *)
Definition redactionRequests (t : list Effect)
  : list (StringRoomID * StringEventID * option string) :=
  map fst (redactions t).

(** The same handler on a transport that answers redactions differently. *)
Definition withRedactEvent {World : Type} (this : MatrixReactionHandler World)
  (redact : StringRoomID -> StringEventID -> option string ->
            World -> ActionResult unit * World)
  : MatrixReactionHandler World :=
  mkMatrixReactionHandler World (roomID this) (clientUserID this)
    (mkClientPlatform World
       (getEvent (clientPlatform this))
       (sendReaction (clientPlatform this))
       (forEachRelation (clientPlatform this))
       redact).

(** An event has the shape of a reaction when the schema accepts it and
    its [m.relates_to] names a target event and a symbol, both strings. *)
Definition isReaction (ReactionEvent : ReactionEventSchema) (event : RoomEvent)
  (target : StringEventID) (symbol : string) : Prop :=
  Value_Check ReactionEvent event = true /\
  exists relatesTo,
    getProperty (content event) "m.relates_to" = VObject relatesTo /\
    getProperty relatesTo "event_id" = VString target /\
    getProperty relatesTo "key" = VString symbol.

(** An event passes the relevance filter when it arrives in the bound room
    from someone other than the client and has the shape of a reaction. *)
Definition relevant {World : Type} (ReactionEvent : ReactionEventSchema)
  (this : MatrixReactionHandler World) (room : StringRoomID) (event : RoomEvent)
  (target : StringEventID) (symbol : string) : Prop :=
  room = roomID this /\
  sender event <> clientUserID this /\
  isReaction ReactionEvent event target symbol.

(** ** A concrete room, used to evaluate the handler *)

Module Sample.

(** A schema that admits every event whose [m.relates_to] is missing or an
    object. *)
Definition looseCheck (event : RoomEvent) : bool :=
  match getProperty (content event) "m.relates_to" with
  | VUndefined | VObject _ => true
  | _ => false
  end.

Definition ReactionEvent : ReactionEventSchema.
Proof.
  refine (mkReactionEventSchema looseCheck _).
  intros event H. unfold looseCheck in H.
  destruct (getProperty (content event) "m.relates_to"); (exact I || discriminate H).
Defined.

Definition managementRoom : StringRoomID := "!management:example.org".
Definition bot : StringUserID := "@draupnir:example.org".
Definition alice : StringUserID := "@alice:example.org".

Definition annotationOf (annotation : Value) : Obj :=
  [ ("msgtype", VString "m.notice");
    (REACTION_ANNOTATION_KEY, annotation) ].

(** The prompt of the specification's example. *)
Definition voteEvent : RoomEvent :=
  mkRoomEvent managementRoom "$vote" bot
    (annotationOf
       (VObject
          [ ("reaction_map",
             VObject [ ("✅", VString "accept"); ("❌", VString "reject") ]);
            ("name", VString "onVote") ])).

(** The annotation the vote decodes to. *)
Definition voteAnnotation : Annotation :=
  mkAnnotation [("✅", VString "accept"); ("❌", VString "reject")]
    "onVote" VUndefined.

(** An ordinary message, and one whose annotation lacks [name]. *)
Definition plainEvent : RoomEvent :=
  mkRoomEvent managementRoom "$plain" alice [ ("body", VString "hello") ].

Definition malformedEvent : RoomEvent :=
  mkRoomEvent managementRoom "$malformed" bot
    (annotationOf
       (VObject [ ("reaction_map", VObject [ ("✅", VString "accept") ]) ])).

(** A key of two lines, and an annotation that keeps a number under it. *)
Definition twoLines : string :=
  String "a" (String "010" (String "b" EmptyString)).

Definition twoLinesEvent : RoomEvent :=
  mkRoomEvent managementRoom "$lines" bot
    (annotationOf
       (VObject
          [ ("reaction_map", VObject [ (twoLines, VNumber 5) ]);
            ("name", VString "onLines") ])).

Definition reaction (eventID : StringEventID) (from : StringUserID)
  (target : StringEventID) (symbol : string) : RoomEvent :=
  mkRoomEvent managementRoom eventID from
    [ ("m.relates_to",
       VObject [ ("rel_type", VString "m.annotation");
                 ("event_id", VString target);
                 ("key", VString symbol) ]) ].

(** The world counts the requests the transport has served. *)
Definition store (room : StringRoomID) (eventID : StringEventID) (w : nat)
  : ActionResult RoomEvent * nat :=
  (if String.eqb eventID "$vote" then Ok voteEvent
   else if String.eqb eventID "$plain" then Ok plainEvent
   else if String.eqb eventID "$malformed" then Ok malformedEvent
   else if String.eqb eventID "$lines" then Ok twoLinesEvent
   else Err "M_NOT_FOUND", S w).

(** Reactions on the vote: the two of the bot's own prompt, one from
    alice, one event that lost its content, and two whose symbols are the
    ones [completePrompt] compares with. *)
Definition relationsOfVote : list RoomEvent :=
  [ reaction "$r1" bot "$vote" "✅";
    reaction "$r2" bot "$vote" "❌";
    reaction "$r3" alice "$vote" "👍";
    mkRoomEvent managementRoom "$r4" alice [];
    reaction "$r5" bot "$vote" "‚úÖ";
    reaction "$r6" bot "$vote" "‚ùå" ].

(** A transport on which everything works. *)
Definition platform : ClientPlatform nat :=
  mkClientPlatform nat
    store
    (fun room eventID reaction w => (Ok ("$sent" ++ toString (N.of_nat w)), S w))
    (fun room eventID relationType eventType w => ((relationsOfVote, Ok tt), S w))
    (fun room eventID reason w => (Ok tt, S w)).

(** A transport that serves [budget] reactions and refuses the rest, and
    on which every redaction fails. *)
Definition flakyPlatform (budget : nat) : ClientPlatform nat :=
  mkClientPlatform nat
    store
    (fun room eventID reaction w =>
       if Nat.ltb w budget then (Ok ("$sent" ++ toString (N.of_nat w)), S w)
       else (Err "M_LIMIT_EXCEEDED", S w))
    (fun room eventID relationType eventType w => ((relationsOfVote, Ok tt), w))
    (fun room eventID reason w => (Err "M_FORBIDDEN", w)).

(** A transport whose relation enumeration fails after the first page. *)
Definition brokenRelationsPlatform : ClientPlatform nat :=
  mkClientPlatform nat
    store
    (fun room eventID reaction w => (Ok "$sent", S w))
    (fun room eventID relationType eventType w =>
       ((firstn 1 relationsOfVote, Err "M_UNKNOWN"), S w))
    (fun room eventID reason w => (Ok tt, S w)).

Definition handler (p : ClientPlatform nat) : MatrixReactionHandler nat :=
  mkMatrixReactionHandler nat managementRoom bot p.

End Sample.

(** ** Creating annotations *)

(** A property key is an array index when it is the canonical decimal
    numeral of an integer below 2^32 - 1. *)
Definition arrayIndex (k : string) : option N :=
  match NilEmpty.uint_of_string k with
  | Some digits =>
      let n := N.of_uint digits in
      if String.eqb (toString n) k && (n <? 4294967295)%N then Some n else None
  | None => None
  end.

Fixpoint insertByIndex {A : Type} (n : N) (kv : string * A)
  (sorted : list (N * (string * A))) : list (N * (string * A)) :=
  match sorted with
  | [] => [(n, kv)]
  | (n', kv') :: rest =>
      if (n <=? n')%N then (n, kv) :: sorted
      else (n', kv') :: insertByIndex n kv rest
  end.

(** The array-index properties among [created], by ascending index. *)
Fixpoint arrayIndexProperties {A : Type} (created : list (string * A))
  : list (N * (string * A)) :=
  match created with
  | [] => []
  | kv :: rest =>
      match arrayIndex (fst kv) with
      | Some n => insertByIndex n kv (arrayIndexProperties rest)
      | None => arrayIndexProperties rest
      end
  end.

(** The own-property order of an object whose properties were created in
    the order [created]: array indices first, ascending, then the other
    keys in creation order. *)
Definition ownPropertyOrder {A : Type} (created : list (string * A))
  : list (string * A) :=
  (map snd (arrayIndexProperties created)
     ++ filter (fun kv => negb (isSome (arrayIndex (fst kv)))) created)%list.

(** [Object.fromEntries(entries)]: one data property per entry, a later
    entry for the same key replacing the value in place. *)
Definition Object_fromEntries (entries : list (string * string))
  : list (string * string) :=
  ownPropertyOrder (Map_new entries).

(** The entries of a string record, as JavaScript values. *)
Definition stringEntries (o : list (string * string)) : Obj :=
  map (fun kv => (fst kv, VString (snd kv))) o.

(** A string record as a JavaScript object. *)
Definition recordValue (o : list (string * string)) : Value :=
  VObject (stringEntries o).

(** [additionalContext: Record<string, unknown> | undefined] *)
Definition contextValue (additionalContext : option Obj) : Value :=
  match additionalContext with
  | Some context => VObject context
  | None => VUndefined
  end.

Definition createAnnotation (listenerName : string)
  (reactionMap : ItemByReactionKey) (additionalContext : option Obj) : Obj :=
  [ (REACTION_ANNOTATION_KEY,
     VObject
       [ ("name", VString listenerName);
         ("reaction_map", recordValue (Object_fromEntries reactionMap));
         ("additional_context", contextValue additionalContext) ]) ].

(** ** Marking an event with a result *)

(** [reactToEventWithResult(roomReactionSender, event, result)].  The cast
    of the answer to [Result<void>] changes its static type only. *)
Definition reactToEventWithResult {World A : Type}
  (roomReactionSender : ClientPlatform World) (event : RoomEvent)
  (result : ActionResult A) : Task World (ActionResult StringEventID) :=
  let react := fun (emote : string) (w : World) =>
    let answer :=
      sendReaction roomReactionSender (room_id event) (event_id event) emote w in
    mkRun (Returned (fst answer)) (snd answer)
      [SendReaction (room_id event) (event_id event) emote (fst answer)] in
  if isOk result then react "✅" else react "❌".

(** ** Grouping commands by their source table *)

(** A command table is an object; the [Map] below is keyed by its
    identity, modelled as a reference number. *)
Definition CommandTable := nat.

Record CommandTableEntry : Type := mkCommandTableEntry {
  sourceTable : CommandTable;
  designator : list string
}.

Definition CommandsBySourceTable := list (CommandTable * list CommandTableEntry).

(** [commandsBySourceTable.get(sourceTable)] *)
Fixpoint tableGet (table : CommandTable) (m : CommandsBySourceTable)
  : option (list CommandTableEntry) :=
  match m with
  | [] => None
  | (t, group) :: rest => if Nat.eqb t table then Some group else tableGet table rest
  end.

(** [groupedCommands.push(command)] on the array the map holds for
    [table]: the map sees the longer array. *)
Fixpoint tablePush (table : CommandTable) (command : CommandTableEntry)
  (m : CommandsBySourceTable) : CommandsBySourceTable :=
  match m with
  | [] => []
  | (t, group) :: rest =>
      if Nat.eqb t table then (t, (group ++ [command])%list) :: rest
      else (t, group) :: tablePush table command rest
  end.

(** One turn of the loop of [sortCommandsBySourceTable]. *)
Definition groupCommand (commandsBySourceTable : CommandsBySourceTable)
  (command : CommandTableEntry) : CommandsBySourceTable :=
  match tableGet (sourceTable command) commandsBySourceTable with
  | Some _ => tablePush (sourceTable command) command commandsBySourceTable
  | None =>
      (commandsBySourceTable ++ [(sourceTable command, [command])])%list
  end.

(** [sortCommandsBySourceTable(table)], given what [table.getAllCommands()]
    yields. *)
Definition sortCommandsBySourceTable (allCommands : list CommandTableEntry)
  : CommandsBySourceTable :=
  fold_left groupCommand allCommands [].

(** ** More of the sample room *)

Module Prompts.

(** A moderation prompt with four itemized choices. *)
Definition choices : list string := ["ban"; "kick"; "mute"; "ignore"].

Definition choicesEvent : RoomEvent :=
  mkRoomEvent Sample.managementRoom "$choices" Sample.bot
    (("msgtype", VString "m.notice")
       :: createAnnotation "onChoice" (createItemizedReactionMap choices)
            (Some [("target", VString "@mallory:example.org")])).

(** A transport that knows the prompt above and nothing else. *)
Definition platform : ClientPlatform nat :=
  mkClientPlatform nat
    (fun room eventID w =>
       (if String.eqb eventID "$choices" then Ok choicesEvent
        else Err "M_NOT_FOUND", S w))
    (fun room eventID reaction w => (Ok "$sent", S w))
    (fun room eventID relationType eventType w =>
       (([ Sample.reaction "$c1" Sample.bot "$choices" (numberToEmoji 1);
            Sample.reaction "$c2" Sample.alice "$choices" (numberToEmoji 2);
            Sample.reaction "$c3" Sample.bot "$choices"
              ("üö´ Cancelled by " ++ Sample.bot);
            Sample.reaction "$c4" Sample.bot "$choices" "✅";
            Sample.reaction "$c5" Sample.bot "$choices" "‚úÖ" ], Ok tt), S w))
    (fun room eventID reason w => (Ok tt, S w)).

Definition handler : MatrixReactionHandler nat :=
  mkMatrixReactionHandler nat Sample.managementRoom Sample.bot platform.

(** Three commands from two tables. *)
Definition commands : list CommandTableEntry :=
  [ mkCommandTableEntry 1 ["ban"];
    mkCommandTableEntry 2 ["rooms"; "add"];
    mkCommandTableEntry 1 ["unban"] ].

End Prompts.

(* ================================================================== *)
(** * Properties *)
(* ================================================================== *)

(** ** Symbol generator *)

Lemma to_uint_nonnil (n : N) : N.to_uint n <> Nil.
Proof.
  destruct n as [|p]; simpl.
  - discriminate.
  - apply DecimalPos.Unsigned.to_uint_nonnil.
Qed.

Lemma decimal_digits (n : N) :
  decimal n = NilEmpty.string_of_uint (N.to_uint n).
Proof.
  unfold decimal, NilZero.string_of_uint.
  destruct (N.to_uint n) eqn:E; try reflexivity.
  exfalso. exact (to_uint_nonnil n E).
Qed.

(** A safe integer is a number as it stands and prints all its digits. *)
Lemma toNumber_safe (n : N) :
  (n <= MAX_SAFE_INTEGER)%N -> toNumber n = Some n.
Proof.
  intros Hn. unfold toNumber.
  now rewrite (proj2 (N.leb_le n MAX_SAFE_INTEGER) Hn).
Qed.

Lemma toString_safe (n : N) :
  (n <= MAX_SAFE_INTEGER)%N -> toString n = decimal n.
Proof.
  intros Hn. unfold toString. rewrite (toNumber_safe n Hn).
  now rewrite (proj2 (N.leb_le n MAX_SAFE_INTEGER) Hn).
Qed.

(** The ten replacements in sequence amount to one pass mapping each digit
    to its symbol: a replacement inserts no digit other than the one it
    has just consumed. *)
Lemma replacements_keycaps (d : uint) :
  replaceAll "9" "9Ô∏è‚É£"
   (replaceAll "8" "8Ô∏è‚É£"
    (replaceAll "7" "7Ô∏è‚É£"
     (replaceAll "6" "6Ô∏è‚É£"
      (replaceAll "5" "5Ô∏è‚É£"
       (replaceAll "4" "4Ô∏è‚É£"
        (replaceAll "3" "3Ô∏è‚É£"
         (replaceAll "2" "2Ô∏è‚É£"
          (replaceAll "1" "1Ô∏è‚É£"
           (replaceAll "0" "0Ô∏è‚É£" (NilEmpty.string_of_uint d))))))))))
  = keycaps d.
Proof.
  induction d; simpl; try rewrite IHd; reflexivity.
Qed.

Lemma numberToEmoji_keycaps (n : N) :
  (n <= MAX_SAFE_INTEGER)%N -> numberToEmoji n = numberToSymbol_spec n.
Proof.
  intros Hn. unfold numberToEmoji, numberToSymbol_spec.
  rewrite (toString_safe n Hn), decimal_digits. apply replacements_keycaps.
Qed.

Lemma keycaps_inj (d d' : uint) : keycaps d = keycaps d' -> d = d'.
Proof.
  revert d'; induction d; destruct d'; simpl; intros H;
    try reflexivity; try discriminate H;
    injection H as H; f_equal; auto.
Qed.

Lemma numberToEmoji_inj (n n' : N) :
  (n <= MAX_SAFE_INTEGER)%N -> (n' <= MAX_SAFE_INTEGER)%N ->
  numberToEmoji n = numberToEmoji n' -> n = n'.
Proof.
  intros Hn Hn'. rewrite !numberToEmoji_keycaps by assumption.
  unfold numberToSymbol_spec. intros H.
  apply DecimalN.Unsigned.to_uint_inj. now apply keycaps_inj.
Qed.

Lemma Map_set_fresh {A : Type} (k : string) (v : A) (m : list (string * A)) :
  ~ In k (Map_keys m) -> Map_set k v m = (m ++ [(k, v)])%list.
Proof.
  induction m as [|[k' v'] m IH]; simpl; intros Hk.
  - reflexivity.
  - destruct (String.eqb_spec k' k) as [->|_].
    + exfalso. apply Hk. now left.
    + rewrite IH; [reflexivity|]. intros Hin. apply Hk. now right.
Qed.

Lemma reduceFrom_itemize (items : list string) :
  forall (i : N) (acc : ItemByReactionKey),
    (i + N.of_nat (length items) <= MAX_SAFE_INTEGER)%N ->
    (forall j, (i <= j)%N -> (j + 1 <= MAX_SAFE_INTEGER)%N ->
               ~ In (numberToEmoji (j + 1)) (Map_keys acc)) ->
    reduceFrom i
      (fun acc item index => Map_set (numberToEmoji (index + 1)) item acc)
      items acc
    = (acc ++ itemizeFrom_spec i items)%list.
Proof.
  induction items as [|item rest IH]; intros i acc Hbound Hfresh.
  - simpl. now rewrite app_nil_r.
  - cbn [length] in Hbound. rewrite Nat2N.inj_succ in Hbound.
    cbn [reduceFrom itemizeFrom_spec].
    rewrite Map_set_fresh by (apply Hfresh; lia).
    rewrite IH.
    + now rewrite <- app_assoc.
    + lia.
    + intros j Hj Hjmax. unfold Map_keys. rewrite map_app, in_app_iff. simpl.
      intros [Hin|[Heq|[]]].
      * apply (Hfresh j); [lia | exact Hjmax | exact Hin].
      * apply numberToEmoji_inj in Heq; lia.
Qed.

Lemma createItemizedReactionMap_itemize (items : list string) :
  (N.of_nat (length items) <= MAX_SAFE_INTEGER)%N ->
  createItemizedReactionMap items = itemize_spec items.
Proof.
  intros Hbound. unfold createItemizedReactionMap, reduce, itemize_spec.
  rewrite reduceFrom_itemize; [reflexivity | exact Hbound |].
  intros j _ _ [].
Qed.

Lemma itemizeFrom_length (items : list string) :
  forall i, length (itemizeFrom_spec i items) = length items.
Proof. induction items; simpl; intros; [|rewrite IHitems]; reflexivity. Qed.

Lemma itemizeFrom_nth_error (items : list string) :
  forall (i : N) (k : nat),
    nth_error (itemizeFrom_spec i items) k
    = option_map (fun item => (numberToEmoji (i + N.of_nat k + 1), item))
                 (nth_error items k).
Proof.
  induction items as [|item rest IH]; intros i k.
  - destruct k; reflexivity.
  - destruct k as [|k]; cbn [nth_error itemizeFrom_spec option_map].
    + now rewrite N.add_0_r.
    + rewrite IH, Nat2N.inj_succ.
      destruct (nth_error rest k); cbn [option_map]; [|reflexivity].
      do 3 f_equal. lia.
Qed.

Lemma itemizeFrom_keys (items : list string) :
  forall (i : N) (k : string),
    In k (Map_keys (itemizeFrom_spec i items)) ->
    exists j, (i <= j < i + N.of_nat (length items))%N /\ k = numberToEmoji (j + 1).
Proof.
  induction items as [|item rest IH]; intros i k Hin.
  - contradiction.
  - cbn [length]. rewrite Nat2N.inj_succ. destruct Hin as [<-|Hin].
    + exists i. split; [lia | reflexivity].
    + destruct (IH _ _ Hin) as (j & Hj & ->). exists j. split; [lia | reflexivity].
Qed.

Lemma itemizeFrom_NoDup (items : list string) :
  forall i,
    (i + N.of_nat (length items) <= MAX_SAFE_INTEGER)%N ->
    NoDup (Map_keys (itemizeFrom_spec i items)).
Proof.
  induction items as [|item rest IH]; intros i Hbound; [constructor|].
  cbn [length] in Hbound. rewrite Nat2N.inj_succ in Hbound.
  cbn [itemizeFrom_spec Map_keys map fst]. constructor.
  - intros Hin. destruct (itemizeFrom_keys _ _ _ Hin) as (j & Hj & Heq).
    apply numberToEmoji_inj in Heq; lia.
  - apply IH. lia.
Qed.

(** An integer that is a number, and what [numberToEmoji] makes of it:
    ten to the twenty-first prints in exponent notation, and the letter
    and the sign stay between the symbols. *)
Lemma numberToEmoji_exponent_notation :
  toNumber 1000000000000000000000 = Some 1000000000000000000000%N /\
  toString 1000000000000000000000 = "1e+21" /\
  numberToEmoji 1000000000000000000000
  = keycap "1" ++ "e+" ++ keycap "2" ++ keycap "1" /\
  numberToEmoji 1000000000000000000000
  <> numberToSymbol_spec 1000000000000000000000.
Proof.
  split; [vm_compute; reflexivity|].
  split; [vm_compute; reflexivity|].
  split; [vm_compute; reflexivity|].
  vm_compute. discriminate.
Qed.

(** C8. For every safe integer, the integers up to 2^53 - 1,
    [numberToEmoji] returns the symbols of its decimal digits, in order,
    the symbol of a digit being what the source substitutes for it; and
    for every list of at most that many items [createItemizedReactionMap]
    has one entry per item, the entry at position [i] pairing
    [numberToEmoji (i + 1)] with the item at [i], and no symbol occurs
    twice. *)
Theorem numberToEmoji_createItemizedReactionMap_spec :
  (forall n : N,
     (n <= MAX_SAFE_INTEGER)%N -> numberToEmoji n = numberToSymbol_spec n) /\
  (forall items : list string,
     (N.of_nat (length items) <= MAX_SAFE_INTEGER)%N ->
     length (createItemizedReactionMap items) = length items /\
     (forall i : nat,
        nth_error (createItemizedReactionMap items) i
        = option_map (fun item => (numberToEmoji (N.of_nat i + 1), item))
                     (nth_error items i)) /\
     NoDup (Map_keys (createItemizedReactionMap items))).
Proof.
  split; [exact numberToEmoji_keycaps|].
  intros items Hbound. rewrite (createItemizedReactionMap_itemize items Hbound).
  unfold itemize_spec.
  repeat split.
  - apply itemizeFrom_length.
  - intros i. now rewrite itemizeFrom_nth_error.
  - apply itemizeFrom_NoDup. exact Hbound.
Qed.

Example numberToEmoji_12 : numberToEmoji 12 = keycap "1" ++ keycap "2".
Proof. reflexivity. Qed.

(** ** Inbound events *)

Lemma checkStringRecord_spec (entries : Obj) :
  checkStringRecord entries = true <->
  (forall k v, In (k, v) entries -> hasLineTerminator k = false ->
               exists s, v = VString s).
Proof.
  induction entries as [|[k v] entries IH]; cbn [checkStringRecord].
  - split; [intros _ k v [] | reflexivity].
  - rewrite andb_true_iff, IH. unfold matchesStringPattern. split.
    + intros (Hhere & Hrest) k' v' [[= <- <-]|Hin] Hplain.
      * rewrite Hplain in Hhere. cbn in Hhere.
        destruct v; try discriminate Hhere. eauto.
      * eauto.
    + intros Hall. split.
      * destruct (hasLineTerminator k) eqn:Hk; [reflexivity|]. cbn.
        destruct (Hall k v (or_introl eq_refl) Hk) as (s & ->). reflexivity.
      * intros k' v' Hin. apply Hall. now right.
Qed.

(** The decoder accepts exactly the content the schema describes. *)
Lemma Decode_ReactionAnnotatedContent_accepts (content : Obj) :
  (exists decoded, Decode_ReactionAnnotatedContent content = Ok decoded) <->
  hasAnnotationShape content.
Proof.
  unfold Decode_ReactionAnnotatedContent, hasAnnotationShape. split.
  - intros (decoded & Hdec).
    destruct (getProperty content REACTION_ANNOTATION_KEY)
      as [| | | | | |annotation|]; try discriminate Hdec.
    destruct (getProperty annotation "reaction_map")
      as [| | | | | |entries|] eqn:Hmap; try discriminate Hdec.
    destruct (checkStringRecord entries) eqn:Hcheck; [|discriminate Hdec].
    destruct (getProperty annotation "name")
      as [| | | |listenerName| | |] eqn:Hname; try discriminate Hdec.
    exists annotation, entries, listenerName.
    split; [reflexivity|]. split; [exact Hmap|]. split; [|exact Hname].
    now apply checkStringRecord_spec.
  - intros (annotation & entries & listenerName & -> & -> & Hall & ->).
    rewrite (proj2 (checkStringRecord_spec entries) Hall). eauto.
Qed.


Section Correlation.

Context {World : Type}.
Variable ReactionEvent : ReactionEventSchema.
Variable this : MatrixReactionHandler World.

(** The guard [reactionKey in reactionMap && reactionMap[reactionKey]]
    does not evaluate to [undefined] for a key the map lacks: a missing
    key leaves [false]. *)
Lemma association_defined (reactionMap : Obj) (reactionKey : string) :
  ownProperty reactionKey reactionMap = None ->
  JSand (hasProperty reactionKey reactionMap) (index reactionMap reactionKey)
  = if inherited reactionKey then VBuiltin reactionKey else VBool false.
Proof.
  intros Hown. unfold JSand, hasProperty, index, getProperty. rewrite Hown.
  cbn [isSome orb]. destruct (inherited reactionKey); reflexivity.
Qed.

Lemma decoded_has_annotation_key (content : Obj) (annotation : Annotation) :
  Decode_ReactionAnnotatedContent content = Ok annotation ->
  hasProperty REACTION_ANNOTATION_KEY content = true.
Proof.
  unfold Decode_ReactionAnnotatedContent, getProperty, hasProperty.
  destruct (ownProperty REACTION_ANNOTATION_KEY content); [reflexivity|].
  discriminate.
Qed.

(** What [handleEvent] does once an event has passed the relevance filter:
    it fetches the target and goes on from the answer. *)
Lemma handleEvent_relevant (room : StringRoomID) (event : RoomEvent)
  (target : StringEventID) (symbol : string) (w : World) :
  relevant ReactionEvent this room event target symbol ->
  handleEvent ReactionEvent this room event w =
  let answer := getEvent (clientPlatform this) room target w in
  let fetched := mkRun (Returned tt) (snd answer) [GetEvent room target] in
  match fst answer with
  | Err _ =>
      mkRun (Returned tt) (snd answer)
        [GetEvent room target; Log LogError "Unable to get annotated event"]
  | Ok ok =>
      if hasProperty REACTION_ANNOTATION_KEY (content ok) then
        match Decode_ReactionAnnotatedContent (content ok) with
        | Err _ =>
            mkRun (Returned tt) (snd answer)
              [GetEvent room target;
               LibraryLog LogError DecodeFailed;
               LibraryLog LogError DecodeFailed;
               Log LogError
                 ("Unable to decode the annotation on an annotated event that was reacted to "
                    ++ target ++ " in " ++ room)]
        | Ok decoded =>
            let association :=
              JSand (hasProperty symbol (reaction_map decoded))
                    (index (reaction_map decoded) symbol) in
            mkRun (Returned tt) (snd answer)
              [GetEvent room target;
               if isUndefined association then
                 Log LogInfo
                   ("There wasn't a defined key for " ++ symbol
                      ++ " on event " ++ target ++ " in " ++ room)
               else
                 Emit (name decoded)
                   (mkListenerArguments symbol association
                      (additional_context decoded)
                      (Map_new (Object_entries (reaction_map decoded)))
                      (ResultObject (Ok ok)))]
        end
      else fetched
  end.
Proof.
  intros (Hroom & Hsender & Hcheck & relatesTo & Hrel & Hid & Hkey).
  apply String.eqb_neq in Hsender.
  unfold handleEvent.
  rewrite Hroom, String.eqb_refl, Hsender, Hcheck, Hrel.
  cbn [negb isUndefined getMember].
  rewrite Hid, Hkey.
  unfold bind, lift, await_getEvent, Value_Decode, log_error, log_info, emit,
    perform, ret.
  cbn [outcome world trace app].
  destruct (getEvent (clientPlatform this) (roomID this) target w) as [[ok|error] w'];
    cbn [fst snd]; [|reflexivity].
  destruct (hasProperty REACTION_ANNOTATION_KEY (content ok)); cbn [negb];
    [|reflexivity].
  destruct (Decode_ReactionAnnotatedContent (content ok)) as [decoded|error];
    cbn [outcome world trace app]; [|reflexivity].
  cbv zeta.
  destruct (isUndefined (JSand (hasProperty symbol (reaction_map decoded))
                               (index (reaction_map decoded) symbol)));
    reflexivity.
Qed.

(** Either an event passes the relevance filter or one of the three
    rejections applies. *)
Lemma relevance_cases (room : StringRoomID) (event : RoomEvent) :
  (exists target symbol, relevant ReactionEvent this room event target symbol) \/
  room <> roomID this \/
  sender event = clientUserID this \/
  (forall target symbol, ~ isReaction ReactionEvent event target symbol).
Proof.
  destruct (String.eqb_spec room (roomID this)) as [Hroom|Hroom]; [|tauto].
  destruct (String.eqb_spec (sender event) (clientUserID this)) as [Hs|Hs]; [tauto|].
  destruct (Value_Check ReactionEvent event) eqn:Hcheck.
  2:{ right; right; right. intros target' symbol' (H & _). congruence. }
  destruct (getProperty (content event) "m.relates_to") as [| | | | | |relatesTo|] eqn:Hrel.
  7:{ destruct (getProperty relatesTo "event_id") as [| | | |target| | |] eqn:Hid.
      5:{ destruct (getProperty relatesTo "key") as [| | | |symbol| | |] eqn:Hkey.
          5:{ left. exists target, symbol. repeat split; auto.
              exists relatesTo. auto. }
          all: right; right; right; intros target' symbol' (_ & r & Hr & _ & Hk);
            rewrite Hrel in Hr; injection Hr as <-; congruence. }
      all: right; right; right; intros target' symbol' (_ & r & Hr & Hi & _);
        rewrite Hrel in Hr; injection Hr as <-; congruence. }
  all: right; right; right; intros target' symbol' (_ & r & Hr & _); congruence.
Qed.

(** Rejected events are dropped on the spot. *)
Lemma handleEvent_irrelevant
  (room : StringRoomID) (event : RoomEvent) (w : World) :
  room <> roomID this \/
  sender event = clientUserID this \/
  (forall target symbol, ~ isReaction ReactionEvent event target symbol) ->
  handleEvent ReactionEvent this room event w = mkRun (Returned tt) w [].
Proof.
  intros H. unfold handleEvent.
  destruct (String.eqb_spec room (roomID this)) as [Hroom|Hroom]; [|reflexivity].
  destruct (String.eqb_spec (sender event) (clientUserID this)) as [Hs|Hs];
    [reflexivity|].
  destruct H as [H|[H|H]]; [contradiction..|].
  cbn [negb].
  destruct (Value_Check ReactionEvent event) eqn:Hcheck; [|reflexivity].
  cbn [negb].
  pose proof (Value_Check_relates_to ReactionEvent event Hcheck) as Hguard.
  destruct (getProperty (content event) "m.relates_to")
    as [| | | | | |relatesTo|] eqn:Hrel; try contradiction; [reflexivity|].
  cbn [isUndefined getMember].
  destruct (getProperty relatesTo "key") as [| | | |symbol| | |] eqn:Hkey;
    destruct (getProperty relatesTo "event_id") as [| | | |target| | |] eqn:Hid;
    try reflexivity.
  exfalso. apply (H target symbol). split; [exact Hcheck|].
  exists relatesTo. auto.
Qed.

(** C3. An event from another room, an event sent by the bound client,
    and an event that is not a reaction carrying [m.relates_to] with a
    string [key] and a string [event_id] are all dropped on the spot:
    [handleEvent] returns normally, the transport is not called (nothing
    is fetched), nothing is logged and nothing is dispatched. *)
Theorem handleEvent_ignores_irrelevant
  (room : StringRoomID) (event : RoomEvent) (w : World) :
  room <> roomID this \/
  sender event = clientUserID this \/
  (forall target symbol, ~ isReaction ReactionEvent event target symbol) ->
  handleEvent ReactionEvent this room event w = mkRun (Returned tt) w [].
Proof. apply handleEvent_irrelevant. Qed.

(** A failing fetch is logged and ends the interaction. *)
Lemma handleEvent_fetch_failure
  (room : StringRoomID) (event : RoomEvent) (target : StringEventID)
  (symbol : string) (w : World) (error : ActionError) :
  relevant ReactionEvent this room event target symbol ->
  fst (getEvent (clientPlatform this) room target w) = Err error ->
  handleEvent ReactionEvent this room event w =
  mkRun (Returned tt) (snd (getEvent (clientPlatform this) room target w))
    [GetEvent room target; Log LogError "Unable to get annotated event"].
Proof.
  intros Hrel Hfetch. rewrite (handleEvent_relevant _ _ _ _ _ Hrel).
  cbv zeta. now rewrite Hfetch.
Qed.


(** C2. On a relevant reaction whose target decodes and whose symbol is a
    key of the reaction map, [handleEvent] fetches once and emits once
    under the decoded listener name, with the symbol, the string the map
    associates with it, the additional context and a new [Map] built from
    the entries of the reaction map.  The last argument is the result
    object [getEvent] answered with, still wrapping the annotated event. *)
Theorem handleEvent_matched_symbol
  (room : StringRoomID) (event : RoomEvent) (target : StringEventID)
  (symbol : string) (w : World) (annotated : RoomEvent)
  (annotation : Annotation) (association : string) :
  relevant ReactionEvent this room event target symbol ->
  fst (getEvent (clientPlatform this) room target w) = Ok annotated ->
  Decode_ReactionAnnotatedContent (content annotated) = Ok annotation ->
  ownProperty symbol (reaction_map annotation) = Some (VString association) ->
  handleEvent ReactionEvent this room event w =
  mkRun (Returned tt) (snd (getEvent (clientPlatform this) room target w))
    [GetEvent room target;
     Emit (name annotation)
       (mkListenerArguments symbol
          (VString association)
          (additional_context annotation)
          (Map_new (Object_entries (reaction_map annotation)))
          (ResultObject (Ok annotated)))].
Proof.
  intros Hrel Hfetch Hdecode Hown.
  rewrite (handleEvent_relevant _ _ _ _ _ Hrel). cbv zeta.
  rewrite Hfetch, (decoded_has_annotation_key _ _ Hdecode), Hdecode.
  unfold hasProperty, index, getProperty. rewrite Hown. reflexivity.
Qed.

(** C1. On a relevant reaction whose target decodes but whose symbol is
    not a key of the reaction map, [handleEvent] does not take the
    info-and-ignore branch: the association is [false] (or the member of
    [Object.prototype] of that name), which is not [undefined], so the
    listener name is emitted once all the same and nothing is logged. *)
Theorem handleEvent_unmatched_symbol
  (room : StringRoomID) (event : RoomEvent) (target : StringEventID)
  (symbol : string) (w : World) (annotated : RoomEvent)
  (annotation : Annotation) :
  relevant ReactionEvent this room event target symbol ->
  fst (getEvent (clientPlatform this) room target w) = Ok annotated ->
  Decode_ReactionAnnotatedContent (content annotated) = Ok annotation ->
  ownProperty symbol (reaction_map annotation) = None ->
  handleEvent ReactionEvent this room event w =
  mkRun (Returned tt) (snd (getEvent (clientPlatform this) room target w))
    [GetEvent room target;
     Emit (name annotation)
       (mkListenerArguments symbol
          (if inherited symbol then VBuiltin symbol else VBool false)
          (additional_context annotation)
          (Map_new (Object_entries (reaction_map annotation)))
          (ResultObject (Ok annotated)))].
Proof.
  intros Hrel Hfetch Hdecode Hown.
  rewrite (handleEvent_relevant _ _ _ _ _ Hrel). cbv zeta.
  rewrite Hfetch, (decoded_has_annotation_key _ _ Hdecode), Hdecode.
  rewrite (association_defined _ _ Hown).
  destruct (inherited symbol); reflexivity.
Qed.

(** One delivered event costs at most one fetch and at most one emit. *)
Lemma handleEvent_at_most_once (room : StringRoomID) (event : RoomEvent) (w : World) :
  length (fetches (trace (handleEvent ReactionEvent this room event w))) <= 1 /\
  length (emits (trace (handleEvent ReactionEvent this room event w))) <= 1.
Proof.
  destruct (relevance_cases room event) as [(target & symbol & Hrel)|Hirr].
  - rewrite (handleEvent_relevant _ _ _ _ _ Hrel). cbv zeta.
    destruct (fst (getEvent (clientPlatform this) room target w)) as [ok|error];
      [|cbn; lia].
    destruct (hasProperty REACTION_ANNOTATION_KEY (content ok)); [|cbn; lia].
    destruct (Decode_ReactionAnnotatedContent (content ok)); [|cbn; lia].
    destruct (isUndefined _); cbn; lia.
  - rewrite (handleEvent_irrelevant _ _ _ Hirr). cbn. lia.
Qed.

(** An emit happens only after a relevant reaction, a successful fetch and
    a successful decode: every earlier exit dispatches nothing. *)
Lemma handleEvent_emits_after_decode (room : StringRoomID) (event : RoomEvent) (w : World) :
  emits (trace (handleEvent ReactionEvent this room event w)) <> [] ->
  exists target symbol annotated annotation,
    relevant ReactionEvent this room event target symbol /\
    fst (getEvent (clientPlatform this) room target w) = Ok annotated /\
    Decode_ReactionAnnotatedContent (content annotated) = Ok annotation.
Proof.
  destruct (relevance_cases room event) as [(target & symbol & Hrel)|Hirr].
  - rewrite (handleEvent_relevant _ _ _ _ _ Hrel). cbv zeta.
    destruct (fst (getEvent (clientPlatform this) room target w)) as [ok|error] eqn:Hfetch;
      [|cbn; congruence].
    destruct (hasProperty REACTION_ANNOTATION_KEY (content ok)); [|cbn; congruence].
    destruct (Decode_ReactionAnnotatedContent (content ok)) as [annotation|] eqn:Hdec;
      [|cbn; congruence].
    intros _. exists target, symbol, ok, annotation. auto.
  - rewrite (handleEvent_irrelevant _ _ _ Hirr). cbn. congruence.
Qed.

End Correlation.

(** ** Prompt lifecycle *)

Section Lifecycle.

Context {World : Type}.
Variable this : MatrixReactionHandler World.

Lemma collect_app {A : Type} (f : Effect -> option A) (t t' : list Effect) :
  collect f (t ++ t')%list = (collect f t ++ collect f t')%list.
Proof.
  induction t as [|e t IH]; simpl; [reflexivity|].
  destruct (f e); simpl; now rewrite IH.
Qed.

(** One turn of the loop of [addReactionsToEvent]. *)
Lemma addReactionsToEvent_loop_step (room : StringRoomID) (eventID : StringEventID)
  (key : string) (rest : list string) (w : World) :
  addReactionsToEvent_loop this room eventID (key :: rest) w =
  let answer := sendReaction (clientPlatform this) room eventID key w in
  match fst answer with
  | Ok sentID =>
      let run := addReactionsToEvent_loop this room eventID rest (snd answer) in
      mkRun (outcome run) (world run)
        (SendReaction room eventID key (Ok sentID) :: trace run)
  | Err error =>
      mkRun (Returned (Err error)) (snd answer)
        [SendReaction room eventID key (Err error);
         Log LogError ("Could not add reaction to event " ++ eventID)]
  end.
Proof.
  cbn [addReactionsToEvent_loop]. unfold bind, await_sendReaction.
  cbn [outcome world trace].
  destruct (sendReaction (clientPlatform this) room eventID key w)
    as [[sentID|error] w1]; reflexivity.
Qed.



(** One turn of the sweep of [completePrompt]. *)
Lemma forEachEvent_step (room : StringRoomID) (reason : option string)
  (event : RoomEvent) (rest : list RoomEvent) (w : World) :
  forEachEvent (completePrompt_forEachCB this room reason) (event :: rest) w =
  if isTerminalMarker (relationKey event) then
    forEachEvent (completePrompt_forEachCB this room reason) rest w
  else
    let answer := redactEvent (clientPlatform this) room (event_id event) reason w in
    let run :=
      forEachEvent (completePrompt_forEachCB this room reason) rest (snd answer) in
    mkRun (outcome run) (world run)
      (RedactEvent room (event_id event) reason (fst answer)
         :: (if isError (fst answer) then [LibraryLog LogError TaskFailed] else [])
         ++ trace run)%list.
Proof.
  cbn [forEachEvent].
  set (continue := forEachEvent (completePrompt_forEachCB this room reason) rest).
  unfold bind, completePrompt_forEachCB, voidTask, bind, call_redactEvent,
    perform, ret.
  destruct (isTerminalMarker (relationKey event)); cbn.
  - destruct (continue w); reflexivity.
  - destruct (redactEvent (clientPlatform this) room (event_id event) reason w)
      as [[[]|error] w1]; reflexivity.
Qed.

(** The sweep of [completePrompt] over the enumerated relation events:
    it asks the transport, in order, for the redaction of each event that
    does not pass for a terminal marker, and sends nothing. *)
Lemma forEachEvent_redacts (room : StringRoomID) (reason : option string)
  (events : list RoomEvent) :
  forall w : World,
    let run := forEachEvent (completePrompt_forEachCB this room reason) events w in
    let swept :=
      redactEach (clientPlatform this) room reason
        (filter (fun event => negb (isTerminalMarker (relationKey event))) events)
        w in
    outcome run = Returned tt /\
    redactions (trace run)
    = map (fun a => (room, fst a, reason, snd a)) (fst swept) /\
    world run = snd swept /\
    sends (trace run) = [] /\
    enumerations (trace run) = [].
Proof.
  induction events as [|event rest IH]; intros w run swept; subst run swept.
  - cbn. auto.
  - rewrite forEachEvent_step. cbn [filter].
    destruct (isTerminalMarker (relationKey event)); cbn [negb].
    + apply IH.
    + cbv zeta. cbn [outcome trace world redactEach fst snd map].
      destruct (IH (snd (redactEvent (clientPlatform this) room
                                     (event_id event) reason w)))
        as (Hout & Hreq & Hworld & Hsends & Henum).
      unfold redactions, sends, enumerations in *.
      cbn [collect redactionOf sendOf enumerationOf].
      rewrite !collect_app, Hreq, Hsends, Henum.
      destruct (isError _); cbn; auto.
Qed.

(** [completePrompt] is one enumeration, the sweep over what it
    enumerated, and the enumeration's own result. *)
Lemma completePrompt_run (room : StringRoomID) (eventID : StringEventID)
  (reason : option string) (w : World) :
  let answer :=
    forEachRelation (clientPlatform this) room eventID "m.annotation" "m.reaction" w in
  let sweep :=
    forEachEvent (completePrompt_forEachCB this room reason)
                 (fst (fst answer)) (snd answer) in
  completePrompt this room eventID reason w =
  mkRun (Returned (snd (fst answer))) (world sweep)
        (ForEachRelation room eventID "m.annotation" "m.reaction" :: trace sweep).
Proof.
  cbv zeta. unfold completePrompt, await_forEachRelation.
  unfold bind at 1. cbn [perform outcome world trace].
  unfold bind at 1 2 3.
  destruct (forEachEvent_redacts room reason
              (fst (fst (forEachRelation (clientPlatform this) room eventID
                                         "m.annotation" "m.reaction" w)))
              (snd (forEachRelation (clientPlatform this) room eventID
                                    "m.annotation" "m.reaction" w)))
    as (Hout & _).
  cbv zeta in Hout. rewrite Hout.
  cbn [ret outcome world trace app]. now rewrite app_nil_r.
Qed.

Lemma isTerminalMarker_spec (key : Value) :
  isTerminalMarker key = true <->
  key = VString "‚úÖ" \/ key = VString "‚ùå".
Proof.
  unfold isTerminalMarker, strictEqString. split.
  - destruct key; try discriminate. intros H.
    apply orb_true_iff in H. destruct H as [H|H];
      apply String.eqb_eq in H; subst; auto.
  - intros [->| ->]; reflexivity.
Qed.

(** The callback's test, read on the event: it holds of the reactions that
    bear one of the two strings the source compares with. *)
Lemma isTerminalMarker_relationKey (event : RoomEvent) :
  isTerminalMarker (relationKey event) = bearsOneOf ["‚úÖ"; "‚ùå"] event.
Proof.
  unfold relationKey, bearsOneOf, optionalMember, isTerminalMarker, strictEqString.
  destruct (getProperty (content event) "m.relates_to")
    as [| | | | | |relatesTo|]; try reflexivity.
  destruct (getProperty relatesTo "key"); try reflexivity.
  cbn [existsb]. now rewrite orb_false_r.
Qed.

(** The symbols ✅ and ❌ are not the strings the source compares with. *)
Lemma bearsOneOf_markers (event : RoomEvent) :
  bearsOneOf ["✅"; "❌"] event = true ->
  bearsOneOf ["‚úÖ"; "‚ùå"] event = false.
Proof.
  unfold bearsOneOf.
  destruct (getProperty (content event) "m.relates_to")
    as [| | | | | |relatesTo|]; try discriminate.
  destruct (getProperty relatesTo "key") as [| | | |key| | |]; try discriminate.
  cbn [existsb]. rewrite !orb_false_r. intros H.
  apply orb_true_iff in H. destruct H as [H|H];
    apply String.eqb_eq in H; subst key; reflexivity.
Qed.

Lemma redactEach_ids (room : StringRoomID) (reason : option string)
  (events : list RoomEvent) :
  forall w : World,
    map fst (fst (redactEach (clientPlatform this) room reason events w))
    = map event_id events.
Proof.
  induction events as [|event rest IH]; intros w; cbn; [reflexivity|].
  now rewrite IH.
Qed.

(** What the sweep of [completePrompt] asks the transport to redact. *)
Lemma completePrompt_swept (room : StringRoomID) (eventID : StringEventID)
  (reason : option string) (w : World) :
  let answer :=
    forEachRelation (clientPlatform this) room eventID "m.annotation" "m.reaction" w in
  let run := completePrompt this room eventID reason w in
  let swept :=
    redactEach (clientPlatform this) room reason
      (filter (fun event => negb (bearsOneOf ["‚úÖ"; "‚ùå"] event))
              (fst (fst answer)))
      (snd answer) in
  enumerations (trace run) = [(room, eventID, "m.annotation", "m.reaction")] /\
  redactions (trace run)
  = map (fun a => (room, fst a, reason, snd a)) (fst swept) /\
  world run = snd swept /\
  outcome run = Returned (snd (fst answer)).
Proof.
  cbv zeta. rewrite completePrompt_run. cbv zeta. cbn [trace outcome world].
  destruct (forEachEvent_redacts room reason
              (fst (fst (forEachRelation (clientPlatform this) room eventID
                                         "m.annotation" "m.reaction" w)))
              (snd (forEachRelation (clientPlatform this) room eventID
                                    "m.annotation" "m.reaction" w)))
    as (_ & Hreq & Hworld & _ & Henum).
  cbv zeta in Hreq, Hworld, Henum.
  rewrite (filter_ext _ (fun event => negb (bearsOneOf ["‚úÖ"; "‚ùå"] event)))
    in Hreq, Hworld
    by (intros event; now rewrite isTerminalMarker_relationKey).
  unfold enumerations, redactions in *.
  cbn [collect enumerationOf redactionOf]. rewrite Henum.
  repeat split; assumption.
Qed.

Lemma completePrompt_requests (room : StringRoomID) (eventID : StringEventID)
  (reason : option string) (w : World) :
  redactionRequests (trace (completePrompt this room eventID reason w))
  = map (fun event => (room, event_id event, reason))
        (filter (fun event => negb (isTerminalMarker (relationKey event)))
                (fst (fst (forEachRelation (clientPlatform this) room eventID
                                           "m.annotation" "m.reaction" w)))).
Proof.
  destruct (completePrompt_swept room eventID reason w) as (_ & Hred & _).
  cbv zeta in Hred. unfold redactionRequests. rewrite Hred, map_map. cbn [fst].
  rewrite <- (map_map fst (fun eventID' => (room, eventID', reason))).
  rewrite redactEach_ids, map_map.
  f_equal. apply filter_ext. intros event.
  now rewrite isTerminalMarker_relationKey.
Qed.

Lemma completePrompt_redacts (room : StringRoomID) (eventID : StringEventID)
  (reason : option string) (w : World) (event : RoomEvent) :
  In event (fst (fst (forEachRelation (clientPlatform this) room eventID
                                      "m.annotation" "m.reaction" w))) ->
  isTerminalMarker (relationKey event) = false ->
  In (room, event_id event, reason)
     (redactionRequests (trace (completePrompt this room eventID reason w))).
Proof.
  intros Hin Hkey. rewrite completePrompt_requests.
  apply (in_map (fun event => (room, event_id event, reason))).
  apply filter_In. split; [exact Hin|]. now rewrite Hkey.
Qed.

(** C6. [completePrompt] asks the transport once for the [m.annotation]
    relations of type [m.reaction] on the target event.  For each event
    the enumeration hands over, in that order, it asks the transport to
    redact it with the given reason unless the event bears one of the two
    strings the source compares the key with; those are the only
    redactions it requests, and what is on record is what the transport
    answered.  Its result is the result of the enumeration, failure
    included.  The two strings are not the symbols ✅ and ❌: an
    enumerated reaction that bears ✅ or ❌ is redacted with the rest. *)
Theorem completePrompt_sweep (room : StringRoomID) (eventID : StringEventID)
  (reason : option string) (w : World) :
  let answer :=
    forEachRelation (clientPlatform this) room eventID "m.annotation" "m.reaction" w in
  let run := completePrompt this room eventID reason w in
  let swept :=
    redactEach (clientPlatform this) room reason
      (filter (fun event => negb (bearsOneOf ["‚úÖ"; "‚ùå"] event))
              (fst (fst answer)))
      (snd answer) in
  enumerations (trace run) = [(room, eventID, "m.annotation", "m.reaction")] /\
  redactions (trace run)
  = map (fun a => (room, fst a, reason, snd a)) (fst swept) /\
  world run = snd swept /\
  outcome run = Returned (snd (fst answer)) /\
  (forall event,
     In event (fst (fst answer)) ->
     bearsOneOf ["✅"; "❌"] event = true ->
     In (room, event_id event, reason) (redactionRequests (trace run))).
Proof.
  cbv zeta.
  destruct (completePrompt_swept room eventID reason w)
    as (Henum & Hred & Hworld & Hout).
  cbv zeta in Henum, Hred, Hworld, Hout.
  repeat split; try assumption.
  intros event Hin Hbears. apply completePrompt_redacts; [exact Hin|].
  rewrite isTerminalMarker_relationKey. now apply bearsOneOf_markers.
Qed.

Lemma completePrompt_sends_nothing (room : StringRoomID) (eventID : StringEventID)
  (reason : option string) (w : World) :
  sends (trace (completePrompt this room eventID reason w)) = [].
Proof.
  rewrite completePrompt_run. cbv zeta. cbn [trace]. unfold sends.
  cbn [collect sendOf].
  apply (forEachEvent_redacts room reason).
Qed.

(** [cancelPrompt] is the sweep and, when the sweep succeeded, one more
    reaction. *)
Lemma cancelPrompt_run (promptEvent : RoomEvent) (cancelReason : option string)
  (w : World) :
  cancelPrompt this promptEvent cancelReason w =
  let reason :=
    match cancelReason with Some reason => reason | None => "prompt cancelled" end in
  let sweep :=
    completePrompt this (room_id promptEvent) (event_id promptEvent) (Some reason) w in
  match outcome sweep with
  | Returned (Ok _) =>
      let notice := "üö´ Cancelled by " ++ sender promptEvent in
      let answer :=
        sendReaction (clientPlatform this) (room_id promptEvent)
          (event_id promptEvent) notice (world sweep) in
      mkRun (Returned (Ok tt)) (snd answer)
        (trace sweep
           ++ SendReaction (room_id promptEvent) (event_id promptEvent) notice
                (fst answer)
           :: (if isError (fst answer) then
                 [Log LogError
                    ("Could not send cancelled reaction event for prompt "
                       ++ event_id promptEvent ++ " in " ++ room_id promptEvent)]
               else []))%list
  | _ => sweep
  end.
Proof.
  cbv zeta. unfold cancelPrompt.
  set (sweepTask := completePrompt this (room_id promptEvent) (event_id promptEvent) _).
  unfold bind, await_sendReaction, log_error, perform, ret.
  destruct (sweepTask w) as [[[[]|error]|e] w1 t1];
    cbn [outcome world trace isError].
  - destruct (sendReaction (clientPlatform this) (room_id promptEvent)
                (event_id promptEvent)
                ("üö´ Cancelled by " ++ sender promptEvent) w1)
      as [[sentID|error] w2]; reflexivity.
  - now rewrite app_nil_r.
  - reflexivity.
Qed.

(** C7. [cancelPrompt] runs the sweep of [completePrompt] with the
    caller's reason, or with "prompt cancelled" when there is none.  If
    the sweep fails, that failure is the result and nothing more happens:
    no reaction is sent.  If the sweep succeeds, one reaction is sent whose
    text is the source's prefix, "Cancelled by" and the sender of the
    prompt event; when that send fails one error line is logged; either
    way the result is the successful result of the sweep. *)
Theorem cancelPrompt_sweep_then_notice (promptEvent : RoomEvent)
  (cancelReason : option string) (w : World) :
  let reason :=
    match cancelReason with Some reason => reason | None => "prompt cancelled" end in
  let sweep :=
    completePrompt this (room_id promptEvent) (event_id promptEvent) (Some reason) w in
  let run := cancelPrompt this promptEvent cancelReason w in
  match outcome sweep with
  | Returned (Err error) => run = sweep /\ sends (trace run) = []
  | Returned (Ok _) =>
      let notice := "üö´ Cancelled by " ++ sender promptEvent in
      let answer :=
        sendReaction (clientPlatform this) (room_id promptEvent)
          (event_id promptEvent) notice (world sweep) in
      run =
      mkRun (Returned (Ok tt)) (snd answer)
        (trace sweep
           ++ SendReaction (room_id promptEvent) (event_id promptEvent) notice
                (fst answer)
           :: (if isError (fst answer) then
                 [Log LogError
                    ("Could not send cancelled reaction event for prompt "
                       ++ event_id promptEvent ++ " in " ++ room_id promptEvent)]
               else []))%list /\
      sends (trace run)
      = [(room_id promptEvent, event_id promptEvent, notice, fst answer)]
  | Threw _ => False
  end.
Proof.
  cbv zeta. rewrite cancelPrompt_run. cbv zeta.
  set (reason := match cancelReason with Some r => r | None => "prompt cancelled" end).
  pose proof (completePrompt_sends_nothing (room_id promptEvent)
                (event_id promptEvent) (Some reason) w) as Hsends.
  pose proof (completePrompt_run (room_id promptEvent)
                (event_id promptEvent) (Some reason) w) as Hrun.
  cbv zeta in Hrun.
  destruct (outcome (completePrompt this (room_id promptEvent)
                       (event_id promptEvent) (Some reason) w))
    as [[[]|error]|e] eqn:Hout.
  - split; [reflexivity|]. cbn [trace]. unfold sends in *.
    rewrite collect_app, Hsends. cbn [collect sendOf].
    destruct (isError _); reflexivity.
  - split; [reflexivity | exact Hsends].
  - rewrite Hrun in Hout. discriminate Hout.
Qed.

End Lifecycle.

(** C10. The result of [completePrompt] is the result of the enumeration
    and nothing else: it does not depend on how the transport answers the
    redactions, so swapping the redacter for any other leaves it as it
    was.  On the sample transport whose every redaction fails,
    [completePrompt] still returns success; on the one whose enumeration
    fails, it returns that failure though the redaction it made went
    through. *)
Theorem completePrompt_result_ignores_redactions :
  (forall (World : Type) (this : MatrixReactionHandler World)
          (redact : StringRoomID -> StringEventID -> option string ->
                    World -> ActionResult unit * World)
          (room : StringRoomID) (eventID : StringEventID)
          (reason : option string) (w : World),
      let enumerated :=
        snd (fst (forEachRelation (clientPlatform this) room eventID
                                  "m.annotation" "m.reaction" w)) in
      outcome (completePrompt this room eventID reason w) = Returned enumerated /\
      outcome (completePrompt (withRedactEvent this redact) room eventID reason w)
      = Returned enumerated) /\
  (let run :=
     completePrompt (Sample.handler (Sample.flakyPlatform 0))
       Sample.managementRoom "$vote" (Some "done") 0 in
   outcome run = Returned (Ok tt) /\
   redactions (trace run)
   = [ (Sample.managementRoom, "$r1", Some "done", Err "M_FORBIDDEN");
       (Sample.managementRoom, "$r2", Some "done", Err "M_FORBIDDEN");
       (Sample.managementRoom, "$r3", Some "done", Err "M_FORBIDDEN");
       (Sample.managementRoom, "$r4", Some "done", Err "M_FORBIDDEN") ]) /\
  (let run :=
     completePrompt (Sample.handler Sample.brokenRelationsPlatform)
       Sample.managementRoom "$vote" (Some "done") 0 in
   outcome run = Returned (Err "M_UNKNOWN") /\
   redactions (trace run)
   = [ (Sample.managementRoom, "$r1", Some "done", Ok tt) ]).
Proof.
  split; [|split].
  - intros. cbv zeta. rewrite !completePrompt_run. split; reflexivity.
  - split; reflexivity.
  - split; reflexivity.
Qed.

(** ** The handler at work in the sample room *)

Import Sample.

(** Discharges [relevant] for a reaction built with [Sample.reaction]. *)
Ltac sample_relevant :=
  split; [reflexivity|];
  split; [intros Hsame; vm_compute in Hsame; discriminate Hsame|];
  split; [reflexivity|];
  eexists; split; [reflexivity|]; split; reflexivity.

(** Discharges the claim that a sample event is no reaction. *)
Ltac sample_not_reaction :=
  let target := fresh "target" in
  let symbol := fresh "symbol" in
  let Hrel := fresh "Hrel" in
  intros target symbol (_ & ? & Hrel & _); vm_compute in Hrel; discriminate Hrel.

(** In another room, from the bot itself, and for an ordinary message,
    nothing happens. *)
Lemma handleEvent_ignores_irrelevant_witness :
  (handleEvent ReactionEvent (handler platform) "!lobby:example.org"
     (reaction "$a" alice "$vote" "✅") 0
   = mkRun (Returned tt) 0 []) /\
  (handleEvent ReactionEvent (handler platform) managementRoom
     (reaction "$b" bot "$vote" "✅") 0
   = mkRun (Returned tt) 0 []) /\
  (handleEvent ReactionEvent (handler platform) managementRoom plainEvent 0
   = mkRun (Returned tt) 0 []).
Proof.
  split; [|split].
  - apply (handleEvent_ignores_irrelevant ReactionEvent (handler platform)).
    left. intros Hsame. vm_compute in Hsame. discriminate Hsame.
  - apply (handleEvent_ignores_irrelevant ReactionEvent (handler platform)).
    right; left. reflexivity.
  - apply (handleEvent_ignores_irrelevant ReactionEvent (handler platform)).
    right; right. sample_not_reaction.
Defined.


(** A number under an ordinary key does not decode. *)
Example Decode_number_under_key :
  Decode_ReactionAnnotatedContent
    (annotationOf
       (VObject [ ("reaction_map", VObject [ ("ab", VNumber 5) ]);
                  ("name", VString "onLines") ]))
  = Err "/ge.applied-langua.ge.draupnir.reaction_handler/reaction_map".
Proof. reflexivity. Qed.

(** A number under a key of two lines does: the key is not one the
    schema's pattern matches.  A reaction with that key is dispatched with
    the number. *)
Example handleEvent_two_line_key :
  Decode_ReactionAnnotatedContent (content twoLinesEvent)
  = Ok (mkAnnotation [(twoLines, VNumber 5)] "onLines" VUndefined) /\
  handleEvent ReactionEvent (handler platform) managementRoom
    (reaction "$a" alice "$lines" twoLines) 0
  = mkRun (Returned tt) 1
      [GetEvent managementRoom "$lines";
       Emit "onLines"
         (mkListenerArguments twoLines (VNumber 5) VUndefined
            [(twoLines, VNumber 5)]
            (ResultObject (Ok twoLinesEvent)))].
Proof. split; reflexivity. Qed.

(** The specification's example: alice's ✅ on the vote reaches the
    listeners of [onVote] with the association [accept]; the last argument
    is the result object around the vote, not the vote. *)
Lemma handleEvent_matched_symbol_witness :
  handleEvent ReactionEvent (handler platform) managementRoom
    (reaction "$a" alice "$vote" "✅") 0
  = mkRun (Returned tt) 1
      [GetEvent managementRoom "$vote";
       Emit "onVote"
         (mkListenerArguments "✅" (VString "accept") VUndefined
            [("✅", VString "accept"); ("❌", VString "reject")]
            (ResultObject (Ok voteEvent)))].
Proof.
  apply (handleEvent_matched_symbol ReactionEvent (handler platform)
           managementRoom (reaction "$a" alice "$vote" "✅")
           "$vote" "✅" 0 voteEvent voteAnnotation "accept").
  - sample_relevant.
  - reflexivity.
  - reflexivity.
  - reflexivity.
Defined.

(** Alice's 👍 on the vote, a symbol the vote does not offer, reaches the
    listeners of [onVote] too, with [false] for an association. *)
Lemma handleEvent_unmatched_symbol_witness :
  ownProperty "👍" (reaction_map voteAnnotation) = None /\
  handleEvent ReactionEvent (handler platform) managementRoom
    (reaction "$a" alice "$vote" "👍") 0
  = mkRun (Returned tt) 1
      [GetEvent managementRoom "$vote";
       Emit "onVote"
         (mkListenerArguments "👍" (VBool false) VUndefined
            [("✅", VString "accept"); ("❌", VString "reject")]
            (ResultObject (Ok voteEvent)))].
Proof.
  split; [reflexivity|].
  apply (handleEvent_unmatched_symbol ReactionEvent (handler platform)
           managementRoom (reaction "$a" alice "$vote" "👍")
           "$vote" "👍" 0 voteEvent voteAnnotation).
  - sample_relevant.
  - reflexivity.
  - reflexivity.
  - reflexivity.
Defined.

(** C9. One delivered event costs at most one fetch and at most one
    emit, and an emit happens only after a relevant reaction, a
    successful fetch and a successful decode.  The unmatched symbol is no
    early exit, though: alice's 👍 on the vote is fetched once and emitted
    once. *)
Theorem handleEvent_dispatch_count :
  (forall (World : Type) (R : ReactionEventSchema)
          (this : MatrixReactionHandler World)
          (room : StringRoomID) (event : RoomEvent) (w : World),
      length (fetches (trace (handleEvent R this room event w))) <= 1 /\
      length (emits (trace (handleEvent R this room event w))) <= 1) /\
  (let run :=
     handleEvent ReactionEvent (handler platform) managementRoom
       (reaction "$a" alice "$vote" "👍") 0 in
   length (fetches (trace run)) = 1 /\
   length (emits (trace run)) = 1 /\
   logs (trace run) = []).
Proof.
  split.
  - intros. apply handleEvent_at_most_once.
  - repeat split.
Qed.

(** Twelve, and the four choices of the sample prompt. *)
Lemma numberToEmoji_createItemizedReactionMap_spec_witness :
  numberToEmoji 12 = numberToSymbol_spec 12 /\
  length (createItemizedReactionMap Prompts.choices) = 4 /\
  nth_error (createItemizedReactionMap Prompts.choices) 2
  = Some (numberToEmoji 3, "mute") /\
  NoDup (Map_keys (createItemizedReactionMap Prompts.choices)).
Proof.
  destruct numberToEmoji_createItemizedReactionMap_spec as (Hnumber & Hitems).
  split.
  - apply Hnumber. apply N.leb_le. reflexivity.
  - destruct (Hitems Prompts.choices) as (Hlength & Hnth & Hnodup).
    + apply N.leb_le. reflexivity.
    + split; [exact Hlength|]. split; [exact (Hnth 2)|exact Hnodup].
Defined.

(** Opening a four-item prompt on a transport that serves two reactions:
    the third send fails, the fourth is never tried. *)
Example addReactionsToEvent_partial :
  let run :=
    addReactionsToEvent (handler (flakyPlatform 2)) managementRoom "$vote"
      (createItemizedReactionMap ["ban"; "kick"; "mute"; "ignore"]) 0 in
  outcome run = Returned (Err "M_LIMIT_EXCEEDED") /\
  world run = 3 /\
  sends (trace run)
  = [ (managementRoom, "$vote", numberToEmoji 1, Ok "$sent0");
      (managementRoom, "$vote", numberToEmoji 2, Ok "$sent1");
      (managementRoom, "$vote", numberToEmoji 3, Err "M_LIMIT_EXCEEDED") ].
Proof. repeat split; reflexivity. Qed.

(** Completing the vote: the reactions that bear ✅ and ❌ are redacted
    with alice's 👍 and the reaction without a key; the two that bear the
    strings of the source's comparison are left alone. *)
Lemma completePrompt_sweep_witness :
  let run := completePrompt (handler platform) managementRoom "$vote" (Some "done") 0 in
  enumerations (trace run)
  = [(managementRoom, "$vote", "m.annotation", "m.reaction")] /\
  redactions (trace run)
  = [ (managementRoom, "$r1", Some "done", Ok tt);
      (managementRoom, "$r2", Some "done", Ok tt);
      (managementRoom, "$r3", Some "done", Ok tt);
      (managementRoom, "$r4", Some "done", Ok tt) ] /\
  world run = 5 /\
  outcome run = Returned (Ok tt) /\
  In (managementRoom, "$r1", Some "done") (redactionRequests (trace run)) /\
  In (managementRoom, "$r2", Some "done") (redactionRequests (trace run)).
Proof.
  destruct (completePrompt_sweep (handler platform) managementRoom "$vote"
              (Some "done") 0)
    as (Henum & Hred & Hworld & Hout & Hmarkers).
  split; [exact Henum|]. split; [exact Hred|]. split; [exact Hworld|].
  split; [exact Hout|]. split.
  - apply (Hmarkers (reaction "$r1" bot "$vote" "✅")).
    + left. reflexivity.
    + reflexivity.
  - apply (Hmarkers (reaction "$r2" bot "$vote" "❌")).
    + right; left. reflexivity.
    + reflexivity.
Defined.

(** Cancelling when the enumeration fails: the failure comes back and no
    notice is posted. *)
Example cancelPrompt_broken_relations :
  let run := cancelPrompt (handler brokenRelationsPlatform) voteEvent None 0 in
  outcome run = Returned (Err "M_UNKNOWN") /\ sends (trace run) = [].
Proof. split; reflexivity. Qed.

(** Cancelling when only the notice fails: still a success. *)
Example cancelPrompt_notice_fails :
  let run := cancelPrompt (handler (flakyPlatform 0)) voteEvent None 0 in
  outcome run = Returned (Ok tt) /\
  attempted (trace run) = [("üö´ Cancelled by @draupnir:example.org", false)] /\
  map fst (logs (trace run)) = [LogError].
Proof. repeat split; reflexivity. Qed.

(** ** Annotations: from [createAnnotation] back through the decoder *)

Lemma ownProperty_app {A : Type} (k : string) (a b : list (string * A)) :
  ownProperty k (a ++ b)%list =
  match ownProperty k a with
  | Some v => Some v
  | None => ownProperty k b
  end.
Proof.
  induction a as [|[k' v'] a IH]; simpl; [reflexivity|].
  destruct (String.eqb k' k); [reflexivity | exact IH].
Qed.

Lemma ownProperty_In {A : Type} (k : string) (v : A) (o : list (string * A)) :
  ownProperty k o = Some v -> In (k, v) o.
Proof.
  induction o as [|[k' v'] o IH]; simpl; [discriminate|].
  destruct (String.eqb_spec k' k) as [->|_].
  - intros [= ->]. now left.
  - intros H. right. auto.
Qed.

Lemma ownProperty_None {A : Type} (k : string) (o : list (string * A)) :
  ~ In k (map fst o) -> ownProperty k o = None.
Proof.
  induction o as [|[k' v'] o IH]; simpl; [reflexivity|].
  intros Hk. destruct (String.eqb_spec k' k) as [->|_].
  - exfalso. apply Hk. now left.
  - apply IH. intros Hin. apply Hk. now right.
Qed.

(** Lookup does not depend on the order of an object's properties. *)
Lemma ownProperty_Permutation {A : Type} (k : string) (o o' : list (string * A)) :
  Permutation o o' -> NoDup (map fst o) -> ownProperty k o = ownProperty k o'.
Proof.
  induction 1 as [|[k1 v1] o o' Hperm IH|[k1 v1] [k2 v2] o|o o' o'' H1 IH1 H2 IH2];
    intros Hnodup.
  - reflexivity.
  - simpl. inversion Hnodup; subst. now rewrite IH.
  - simpl. destruct (String.eqb_spec k1 k) as [->|_];
      destruct (String.eqb_spec k2 k) as [->|_]; try reflexivity.
    exfalso. inversion Hnodup as [|? ? Hnotin _]; subst. apply Hnotin. now left.
  - rewrite IH1 by assumption. apply IH2.
    apply (Permutation_NoDup (Permutation_map fst H1) Hnodup).
Qed.

(** [new Map(entries)] keeps entries whose keys are already distinct. *)
Lemma Map_new_from {A : Type} (entries acc : list (string * A)) :
  NoDup (map fst (acc ++ entries)%list) ->
  fold_left (fun acc kv => Map_set (fst kv) (snd kv) acc) entries acc
  = (acc ++ entries)%list.
Proof.
  revert acc. induction entries as [|[k v] entries IH]; intros acc Hnodup; simpl.
  - now rewrite app_nil_r.
  - rewrite Map_set_fresh.
    + rewrite IH; rewrite <- app_assoc; [reflexivity | exact Hnodup].
    + rewrite map_app in Hnodup. simpl in Hnodup.
      apply NoDup_remove_2 in Hnodup. intros Hin. apply Hnodup.
      apply in_or_app. now left.
Qed.

Lemma Map_new_NoDup {A : Type} (entries : list (string * A)) :
  NoDup (Map_keys entries) -> Map_new entries = entries.
Proof. intros H. unfold Map_new. now rewrite Map_new_from. Qed.

Lemma insertByIndex_Permutation {A : Type} (n : N) (kv : string * A)
  (sorted : list (N * (string * A))) :
  Permutation (insertByIndex n kv sorted) ((n, kv) :: sorted).
Proof.
  induction sorted as [|[n' kv'] sorted IH]; simpl; [reflexivity|].
  destruct (n <=? n')%N; [reflexivity|].
  rewrite IH. apply perm_swap.
Qed.

Lemma arrayIndexProperties_Permutation {A : Type} (created : list (string * A)) :
  Permutation (map snd (arrayIndexProperties created))
              (filter (fun kv => isSome (arrayIndex (fst kv))) created).
Proof.
  induction created as [|kv created IH]; simpl; [reflexivity|].
  destruct (arrayIndex (fst kv)); simpl; [|exact IH].
  rewrite (Permutation_map snd (insertByIndex_Permutation _ _ _)). simpl.
  now constructor.
Qed.

Lemma filter_split_Permutation {A : Type} (f : A -> bool) (l : list A) :
  Permutation (filter f l ++ filter (fun x => negb (f x)) l)%list l.
Proof.
  induction l as [|x l IH]; simpl; [reflexivity|].
  destruct (f x); simpl.
  - now constructor.
  - rewrite <- Permutation_middle. now constructor.
Qed.

Lemma ownPropertyOrder_Permutation {A : Type} (created : list (string * A)) :
  Permutation (ownPropertyOrder created) created.
Proof.
  unfold ownPropertyOrder.
  rewrite arrayIndexProperties_Permutation.
  apply (filter_split_Permutation (fun kv => isSome (arrayIndex (fst kv)))).
Qed.

(** Without array-index keys the creation order is the property order. *)
Lemma ownPropertyOrder_plain {A : Type} (created : list (string * A)) :
  (forall k, In k (map fst created) -> arrayIndex k = None) ->
  ownPropertyOrder created = created.
Proof.
  intros Hplain. unfold ownPropertyOrder.
  assert (Hnone : arrayIndexProperties created = []).
  { induction created as [|kv created IH]; [reflexivity|]. simpl.
    rewrite (Hplain (fst kv)) by now left.
    apply IH. intros k Hk. apply Hplain. now right. }
  rewrite Hnone. simpl.
  induction created as [|kv created IH]; [reflexivity|]. simpl.
  rewrite (Hplain (fst kv)) by now left. simpl. f_equal.
  apply IH.
  - intros k Hk. apply Hplain. now right.
  - simpl in Hnone. rewrite (Hplain (fst kv)) in Hnone by now left. exact Hnone.
Qed.

Lemma checkStringRecord_stringEntries (o : list (string * string)) :
  checkStringRecord (stringEntries o) = true.
Proof.
  induction o as [|[k v] o IH]; cbn; [reflexivity|].
  unfold stringEntries in IH. rewrite IH.
  now destruct (matchesStringPattern k).
Qed.

Lemma stringEntries_keys (o : list (string * string)) :
  map fst (stringEntries o) = map fst o.
Proof. unfold stringEntries. rewrite map_map. reflexivity. Qed.

Lemma ownProperty_stringEntries (k : string) (o : list (string * string)) :
  ownProperty k (stringEntries o) = option_map VString (ownProperty k o).
Proof.
  induction o as [|[k' v'] o IH]; cbn; [reflexivity|].
  destruct (String.eqb k' k); [reflexivity | exact IH].
Qed.

(** What the decoder makes of content that holds an annotation made by
    [createAnnotation]. *)
Lemma Decode_createAnnotation (listenerName : string)
  (entries : ItemByReactionKey) (context : option Obj) (before after : Obj) :
  ownProperty REACTION_ANNOTATION_KEY before = None ->
  Decode_ReactionAnnotatedContent
    (before ++ createAnnotation listenerName entries context ++ after)%list
  = Ok (mkAnnotation (stringEntries (Object_fromEntries entries)) listenerName
                     (contextValue context)).
Proof.
  intros Hbefore. unfold Decode_ReactionAnnotatedContent, getProperty at 1.
  rewrite ownProperty_app, Hbefore.
  unfold createAnnotation. rewrite ownProperty_app.
  unfold ownProperty at 1. rewrite String.eqb_refl.
  unfold getProperty, recordValue. cbn.
  rewrite checkStringRecord_stringEntries. reflexivity.
Qed.

Lemma Object_fromEntries_Permutation (entries : ItemByReactionKey) :
  NoDup (Map_keys entries) -> Permutation (Object_fromEntries entries) entries.
Proof.
  intros H. unfold Object_fromEntries. rewrite (Map_new_NoDup _ H).
  apply ownPropertyOrder_Permutation.
Qed.

(** X4. Content that holds what [createAnnotation] returns always
    decodes: to the same listener name, the same additional context and a
    reaction map with the same entries, each key still leading to its
    item; the entries keep their order when no key is an array index. *)
Theorem createAnnotation_decodes (listenerName : string)
  (entries : ItemByReactionKey) (context : option Obj) (before after : Obj) :
  ownProperty REACTION_ANNOTATION_KEY before = None ->
  NoDup (Map_keys entries) ->
  exists decoded,
    Decode_ReactionAnnotatedContent
      (before ++ createAnnotation listenerName entries context ++ after)%list
    = Ok decoded /\
    name decoded = listenerName /\
    additional_context decoded = contextValue context /\
    Permutation (reaction_map decoded) (stringEntries entries) /\
    (forall k, ownProperty k (reaction_map decoded)
               = option_map VString (ownProperty k entries)) /\
    ((forall k, In k (Map_keys entries) -> arrayIndex k = None) ->
     reaction_map decoded = stringEntries entries).
Proof.
  intros Hbefore Hnodup. eexists. split; [now apply Decode_createAnnotation|].
  cbn [name additional_context reaction_map].
  pose proof (Object_fromEntries_Permutation entries Hnodup) as Hperm.
  split; [reflexivity|]. split; [reflexivity|]. split; [|split].
  - unfold stringEntries. now apply Permutation_map.
  - intros k. rewrite !ownProperty_stringEntries. f_equal.
    symmetry. apply ownProperty_Permutation; [now symmetry | exact Hnodup].
  - intros Hplain. unfold Object_fromEntries. rewrite (Map_new_NoDup _ Hnodup).
    now rewrite ownPropertyOrder_plain.
Qed.

(** ** Itemized symbols *)


(** Past the safe integers two integers can read as one number, and then
    they share a symbol. *)
Example numberToEmoji_rounds :
  numberToEmoji 9007199254740993 = numberToEmoji 9007199254740992.
Proof. vm_compute. reflexivity. Qed.

Lemma itemizeFrom_lookup (items : list string) :
  forall (j : N) (i : nat) (item : string),
    (j + N.of_nat (length items) <= MAX_SAFE_INTEGER)%N ->
    nth_error items i = Some item ->
    ownProperty (numberToEmoji (j + N.of_nat i + 1)) (itemizeFrom_spec j items)
    = Some item.
Proof.
  induction items as [|first rest IH]; intros j i item Hbound Hnth.
  - destruct i; discriminate Hnth.
  - cbn [length] in Hbound. rewrite Nat2N.inj_succ in Hbound.
    cbn [itemizeFrom_spec ownProperty]. destruct i as [|i].
    + rewrite N.add_0_r, String.eqb_refl. exact Hnth.
    + cbn [nth_error] in Hnth.
      assert (Hi : i < length rest) by (apply nth_error_Some; congruence).
      destruct (String.eqb_spec (numberToEmoji (j + 1))
                                (numberToEmoji (j + N.of_nat (S i) + 1)))
        as [Heq|_].
      * apply numberToEmoji_inj in Heq; lia.
      * rewrite <- (IH (j + 1)%N i item) by (assumption || lia).
        do 2 f_equal. lia.
Qed.

Lemma createItemizedReactionMap_lookup (items : list string) (i : nat)
  (item : string) :
  (N.of_nat (length items) <= MAX_SAFE_INTEGER)%N ->
  nth_error items i = Some item ->
  ownProperty (numberToEmoji (N.of_nat i + 1)) (createItemizedReactionMap items)
  = Some item.
Proof.
  intros Hbound Hnth. rewrite (createItemizedReactionMap_itemize items Hbound).
  unfold itemize_spec. now rewrite <- (itemizeFrom_lookup items 0 i item).
Qed.

Lemma createItemizedReactionMap_NoDup (items : list string) :
  (N.of_nat (length items) <= MAX_SAFE_INTEGER)%N ->
  NoDup (Map_keys (createItemizedReactionMap items)).
Proof.
  intros Hbound. rewrite (createItemizedReactionMap_itemize items Hbound).
  apply itemizeFrom_NoDup. exact Hbound.
Qed.

Lemma createItemizedReactionMap_keys (items : list string) (k : string) :
  (N.of_nat (length items) <= MAX_SAFE_INTEGER)%N ->
  In k (Map_keys (createItemizedReactionMap items)) ->
  exists n, (n <= MAX_SAFE_INTEGER)%N /\ k = numberToEmoji n.
Proof.
  intros Hbound. rewrite (createItemizedReactionMap_itemize items Hbound).
  intros Hin.
  destruct (itemizeFrom_keys _ _ _ Hin) as (j & Hj & ->).
  exists (j + 1)%N. split; [lia | reflexivity].
Qed.

(** X6. In the itemized reaction map of a list of at most 2^53 - 1 items
    a symbol leads to an item exactly when it is the symbol of a position
    of the list, and then to the item at that position. *)
Theorem createItemizedReactionMap_resolves (items : list string)
  (k item : string) :
  (N.of_nat (length items) <= MAX_SAFE_INTEGER)%N ->
  (ownProperty k (createItemizedReactionMap items) = Some item <->
   exists i : nat,
     k = numberToEmoji (N.of_nat i + 1) /\ nth_error items i = Some item).
Proof.
  intros Hbound. split.
  - intros Hown. apply ownProperty_In in Hown.
    apply In_nth_error in Hown. destruct Hown as (i & Hi).
    rewrite (createItemizedReactionMap_itemize items Hbound) in Hi.
    unfold itemize_spec in Hi.
    rewrite itemizeFrom_nth_error in Hi.
    destruct (nth_error items i) as [item'|] eqn:Hnth; [|discriminate].
    cbn in Hi. injection Hi as <- <-. exists i. split; [reflexivity|exact Hnth].
  - intros (i & -> & Hnth). now apply createItemizedReactionMap_lookup.
Qed.

Lemma uint_of_string_keycap (digit : ascii) (s : string) :
  NilEmpty.uint_of_string (keycap digit ++ s) = None.
Proof.
  unfold keycap. simpl. destruct (NilEmpty.uint_of_string s); reflexivity.
Qed.

(** No symbol of [numberToEmoji] is an array index. *)
Lemma arrayIndex_numberToEmoji (n : N) :
  (n <= MAX_SAFE_INTEGER)%N -> arrayIndex (numberToEmoji n) = None.
Proof.
  intros Hn. rewrite (numberToEmoji_keycaps n Hn).
  unfold numberToSymbol_spec, arrayIndex.
  destruct (N.to_uint n); cbn [keycaps];
    try (rewrite uint_of_string_keycap; reflexivity).
  reflexivity.
Qed.

(** No symbol of [numberToEmoji] passes for a terminal marker. *)
Lemma isTerminalMarker_numberToEmoji (n : N) :
  (n <= MAX_SAFE_INTEGER)%N ->
  isTerminalMarker (VString (numberToEmoji n)) = false.
Proof.
  intros Hn. rewrite (numberToEmoji_keycaps n Hn). unfold numberToSymbol_spec.
  destruct (N.to_uint n); reflexivity.
Qed.

Lemma isTerminalMarker_notice (who : string) :
  isTerminalMarker (VString ("üö´ Cancelled by " ++ who)) = false.
Proof. reflexivity. Qed.

Lemma Object_fromEntries_itemized (items : list string) :
  (N.of_nat (length items) <= MAX_SAFE_INTEGER)%N ->
  Object_fromEntries (createItemizedReactionMap items)
  = createItemizedReactionMap items.
Proof.
  intros Hbound. unfold Object_fromEntries.
  rewrite (Map_new_NoDup _ (createItemizedReactionMap_NoDup items Hbound)).
  apply ownPropertyOrder_plain. intros k Hk.
  destruct (createItemizedReactionMap_keys items k Hbound Hk) as (n & Hn & ->).
  now apply arrayIndex_numberToEmoji.
Qed.

(** ** More on inbound events *)

Section Dispatch.

Context {World : Type}.
Variable ReactionEvent : ReactionEventSchema.
Variable this : MatrixReactionHandler World.

(** X1. When the target of a relevant reaction cannot be fetched,
    [handleEvent] makes the one fetch, logs one line at error level and
    returns; nothing is dispatched and the fetch is not tried again. *)
Theorem handleEvent_fetch_failure_dropped
  (room : StringRoomID) (event : RoomEvent) (target : StringEventID)
  (symbol : string) (w : World) (error : ActionError) :
  relevant ReactionEvent this room event target symbol ->
  fst (getEvent (clientPlatform this) room target w) = Err error ->
  handleEvent ReactionEvent this room event w =
  mkRun (Returned tt) (snd (getEvent (clientPlatform this) room target w))
    [GetEvent room target; Log LogError "Unable to get annotated event"].
Proof. apply handleEvent_fetch_failure. Qed.

(** X2. Whatever [handleEvent] emits comes from a decoded annotation of
    the fetched target of a relevant reaction: the emitted name is the
    annotation's listener name, the key is the reaction's symbol, and the
    context and reaction map are the annotation's. *)
Theorem handleEvent_emit_provenance
  (room : StringRoomID) (event : RoomEvent) (w : World)
  (eventName : string) (arguments : ListenerArguments) :
  In (eventName, arguments)
     (emits (trace (handleEvent ReactionEvent this room event w))) ->
  exists target symbol annotated annotation,
    relevant ReactionEvent this room event target symbol /\
    fst (getEvent (clientPlatform this) room target w) = Ok annotated /\
    Decode_ReactionAnnotatedContent (content annotated) = Ok annotation /\
    hasAnnotationShape (content annotated) /\
    eventName = name annotation /\
    key arguments = symbol /\
    additionalContext arguments = additional_context annotation /\
    reactionMap arguments = Map_new (Object_entries (reaction_map annotation)).
Proof.
  destruct (relevance_cases ReactionEvent this room event)
    as [(target & symbol & Hrel)|Hirr].
  - rewrite (handleEvent_relevant _ _ _ _ _ _ _ Hrel). cbv zeta.
    destruct (fst (getEvent (clientPlatform this) room target w))
      as [ok|error] eqn:Hfetch; [|cbn; contradiction].
    destruct (hasProperty REACTION_ANNOTATION_KEY (content ok));
      [|cbn; contradiction].
    destruct (Decode_ReactionAnnotatedContent (content ok))
      as [annotation|] eqn:Hdec; [|cbn; contradiction].
    destruct (isUndefined _); [cbn; contradiction|].
    cbn. intros [[= <- <-]|[]].
    exists target, symbol, ok, annotation.
    split; [exact Hrel|]. split; [exact Hfetch|]. split; [exact Hdec|].
    split; [apply Decode_ReactionAnnotatedContent_accepts; eauto|].
    cbn. auto.
  - rewrite (handleEvent_irrelevant _ _ _ _ _ Hirr). cbn. contradiction.
Qed.

(** X3. [handleEvent] only reads: it never sends a reaction, never
    redacts and never enumerates relations.  It logs at most one line of
    its own, on top of the two the library writes when the decoder fails,
    and when anything is logged nothing is emitted. *)
Theorem handleEvent_read_only
  (room : StringRoomID) (event : RoomEvent) (w : World) :
  let run := handleEvent ReactionEvent this room event w in
  sends (trace run) = [] /\
  redactions (trace run) = [] /\
  enumerations (trace run) = [] /\
  length (logs (trace run)) <= 1 /\
  length (libraryLogs (trace run)) <= 2 /\
  (libraryLogs (trace run) <> [] -> length (logs (trace run)) = 1) /\
  ((logs (trace run) = [] /\ libraryLogs (trace run) = []) \/
   emits (trace run) = []).
Proof.
  cbv zeta.
  destruct (relevance_cases ReactionEvent this room event)
    as [(target & symbol & Hrel)|Hirr].
  - rewrite (handleEvent_relevant _ _ _ _ _ _ _ Hrel). cbv zeta.
    destruct (fst (getEvent (clientPlatform this) room target w)) as [ok|error];
      [|cbn; repeat split; auto; congruence].
    destruct (hasProperty REACTION_ANNOTATION_KEY (content ok));
      [|cbn; repeat split; auto; congruence].
    destruct (Decode_ReactionAnnotatedContent (content ok));
      [|cbn; repeat split; auto].
    destruct (isUndefined _); cbn; repeat split; auto; congruence.
  - rewrite (handleEvent_irrelevant _ _ _ _ _ Hirr). cbn.
    repeat split; auto; congruence.
Qed.

(** The run of [handleEvent] on a reaction to an event annotated by
    [createAnnotation], for a symbol of the reaction map. *)
Lemma handleEvent_createAnnotation
  (room : StringRoomID) (event : RoomEvent) (target : StringEventID)
  (symbol : string) (w : World) (annotated : RoomEvent)
  (listenerName : string) (entries : ItemByReactionKey) (context : option Obj)
  (before after : Obj) (association : string) :
  relevant ReactionEvent this room event target symbol ->
  fst (getEvent (clientPlatform this) room target w) = Ok annotated ->
  content annotated
  = (before ++ createAnnotation listenerName entries context ++ after)%list ->
  ownProperty REACTION_ANNOTATION_KEY before = None ->
  NoDup (Map_keys entries) ->
  ownProperty symbol entries = Some association ->
  handleEvent ReactionEvent this room event w =
  mkRun (Returned tt) (snd (getEvent (clientPlatform this) room target w))
    [GetEvent room target;
     Emit listenerName
       (mkListenerArguments symbol (VString association) (contextValue context)
          (stringEntries (Object_fromEntries entries))
          (ResultObject (Ok annotated)))].
Proof.
  intros Hrel Hfetch Hcontent Hbefore Hnodup Hown.
  pose proof (Decode_createAnnotation listenerName entries context before after
                Hbefore) as Hdec.
  rewrite <- Hcontent in Hdec.
  pose proof (Object_fromEntries_Permutation entries Hnodup) as Hperm.
  assert (Hlookup : ownProperty symbol (stringEntries (Object_fromEntries entries))
                    = Some (VString association)).
  { rewrite ownProperty_stringEntries.
    rewrite <- (ownProperty_Permutation symbol _ _ (Permutation_sym Hperm))
      by exact Hnodup.
    now rewrite Hown. }
  rewrite (handleEvent_relevant _ _ _ _ _ _ _ Hrel). cbv zeta.
  rewrite Hfetch, (decoded_has_annotation_key _ _ Hdec), Hdec.
  cbn [reaction_map name additional_context].
  unfold hasProperty, index, getProperty. rewrite Hlookup.
  cbn [isSome orb JSand isUndefined]. unfold Object_entries.
  rewrite Map_new_NoDup; [reflexivity|].
  unfold Map_keys. rewrite stringEntries_keys.
  apply (Permutation_NoDup (Permutation_map fst (Permutation_sym Hperm))).
  exact Hnodup.
Qed.

(** X5. A reaction with a symbol of the reaction map, to an event whose
    content holds what [createAnnotation] returned, is dispatched once
    under the listener name given to [createAnnotation], with the item
    the map gave that symbol, the same additional context and a reaction
    map with the same entries. *)
Theorem annotated_prompt_dispatches
  (room : StringRoomID) (event : RoomEvent) (target : StringEventID)
  (symbol : string) (w : World) (annotated : RoomEvent)
  (listenerName : string) (entries : ItemByReactionKey) (context : option Obj)
  (before after : Obj) (association : string) :
  relevant ReactionEvent this room event target symbol ->
  fst (getEvent (clientPlatform this) room target w) = Ok annotated ->
  content annotated
  = (before ++ createAnnotation listenerName entries context ++ after)%list ->
  ownProperty REACTION_ANNOTATION_KEY before = None ->
  NoDup (Map_keys entries) ->
  ownProperty symbol entries = Some association ->
  let run := handleEvent ReactionEvent this room event w in
  outcome run = Returned tt /\
  logs (trace run) = [] /\
  exists arguments,
    emits (trace run) = [(listenerName, arguments)] /\
    key arguments = symbol /\
    item arguments = VString association /\
    additionalContext arguments = contextValue context /\
    Permutation (reactionMap arguments) (stringEntries entries) /\
    (forall k, ownProperty k (reactionMap arguments)
               = option_map VString (ownProperty k entries)).
Proof.
  intros Hrel Hfetch Hcontent Hbefore Hnodup Hown. cbv zeta.
  rewrite (handleEvent_createAnnotation _ _ _ _ _ _ _ _ _ _ _ _
             Hrel Hfetch Hcontent Hbefore Hnodup Hown).
  pose proof (Object_fromEntries_Permutation entries Hnodup) as Hperm.
  split; [reflexivity|]. split; [reflexivity|].
  eexists. split; [reflexivity|]. cbn.
  split; [reflexivity|]. split; [reflexivity|]. split; [reflexivity|]. split.
  - unfold stringEntries. now apply Permutation_map.
  - intros k. rewrite !ownProperty_stringEntries. f_equal.
    symmetry. apply ownProperty_Permutation; [now symmetry | exact Hnodup].
Qed.

(** X7. For a prompt annotated with the itemized reaction map of a list
    of at most 2^53 - 1 items, a reaction with the symbol of position [i]
    is dispatched with the item at position [i], and the listener
    receives the itemized map itself, entries in order. *)
Theorem itemized_prompt_dispatches
  (room : StringRoomID) (event : RoomEvent) (target : StringEventID)
  (w : World) (annotated : RoomEvent)
  (listenerName : string) (items : list string) (context : option Obj)
  (before after : Obj) (i : nat) (choice : string) :
  (N.of_nat (length items) <= MAX_SAFE_INTEGER)%N ->
  relevant ReactionEvent this room event target (numberToEmoji (N.of_nat i + 1)) ->
  fst (getEvent (clientPlatform this) room target w) = Ok annotated ->
  content annotated
  = (before
       ++ createAnnotation listenerName (createItemizedReactionMap items) context
       ++ after)%list ->
  ownProperty REACTION_ANNOTATION_KEY before = None ->
  nth_error items i = Some choice ->
  let run := handleEvent ReactionEvent this room event w in
  outcome run = Returned tt /\
  exists arguments,
    emits (trace run) = [(listenerName, arguments)] /\
    key arguments = numberToEmoji (N.of_nat i + 1) /\
    item arguments = VString choice /\
    additionalContext arguments = contextValue context /\
    reactionMap arguments = stringEntries (createItemizedReactionMap items).
Proof.
  intros Hbound Hrel Hfetch Hcontent Hbefore Hnth. cbv zeta.
  rewrite (handleEvent_createAnnotation _ _ _ _ _ _ _ _ _ _ _ choice
             Hrel Hfetch Hcontent Hbefore
             (createItemizedReactionMap_NoDup items Hbound)).
  - split; [reflexivity|]. eexists. split; [reflexivity|]. cbn.
    repeat split. now rewrite Object_fromEntries_itemized.
  - now apply createItemizedReactionMap_lookup.
Qed.

End Dispatch.

(** ** More on the prompt lifecycle *)

Section Sweeps.

Context {World : Type}.
Variable this : MatrixReactionHandler World.

(** X9. The sweep of [completePrompt] asks for the redaction of every
    enumerated reaction that bears the symbol [numberToEmoji] gives a safe
    integer or a cancellation notice of [cancelPrompt]: none of these
    passes for a terminal marker. *)
Theorem completePrompt_redacts_own_symbols (room : StringRoomID)
  (eventID : StringEventID) (reason : option string) (w : World)
  (event : RoomEvent) :
  In event (fst (fst (forEachRelation (clientPlatform this) room eventID
                                      "m.annotation" "m.reaction" w))) ->
  (exists n, (n <= MAX_SAFE_INTEGER)%N /\
             relationKey event = VString (numberToEmoji n)) \/
  (exists promptEvent,
     relationKey event
     = VString ("üö´ Cancelled by " ++ sender promptEvent)) ->
  In (room, event_id event, reason)
     (redactionRequests (trace (completePrompt this room eventID reason w))).
Proof.
  intros Hin Hkey. apply completePrompt_redacts; [exact Hin|].
  destruct Hkey as [(n & Hn & ->)|(promptEvent & ->)].
  - now apply isTerminalMarker_numberToEmoji.
  - apply isTerminalMarker_notice.
Qed.

(** X10. An enumerated event whose key is not a string (its content or
    its [m.relates_to] is gone, or the key is missing) is redacted by
    [completePrompt] like any other. *)
Theorem completePrompt_redacts_keyless (room : StringRoomID)
  (eventID : StringEventID) (reason : option string) (w : World)
  (event : RoomEvent) :
  In event (fst (fst (forEachRelation (clientPlatform this) room eventID
                                      "m.annotation" "m.reaction" w))) ->
  (forall symbol, relationKey event <> VString symbol) ->
  In (room, event_id event, reason)
     (redactionRequests (trace (completePrompt this room eventID reason w))).
Proof.
  intros Hin Hkey. apply completePrompt_redacts; [exact Hin|].
  destruct (isTerminalMarker (relationKey event)) eqn:Hmark; [|reflexivity].
  apply isTerminalMarker_spec in Hmark. destruct Hmark as [H|H];
    exfalso; exact (Hkey _ H).
Qed.

(** The sweep leaves redactions on record and, for each that failed, the
    line [Task] writes. *)
Lemma forEachEvent_only_redacts (room : StringRoomID) (reason : option string)
  (events : list RoomEvent) :
  forall w : World,
    let sweep :=
      trace (forEachEvent (completePrompt_forEachCB this room reason) events w) in
    Forall (fun e => (exists eventID result,
                         e = RedactEvent room eventID reason result) \/
                     e = LibraryLog LogError TaskFailed)
           sweep /\
    libraryLogs sweep
    = map (fun _ => (LogError, TaskFailed))
          (filter (fun r => isError (snd r)) (redactions sweep)).
Proof.
  induction events as [|event rest IH]; intros w; cbv zeta.
  - split; [constructor | reflexivity].
  - rewrite forEachEvent_step.
    destruct (isTerminalMarker (relationKey event)); [apply IH|].
    cbv zeta. cbn [trace].
    destruct (IH (snd (redactEvent (clientPlatform this) room
                                   (event_id event) reason w)))
      as (Hall & Hlogs).
    unfold libraryLogs, redactions in *.
    cbn [collect libraryLogOf redactionOf]. rewrite !collect_app, Hlogs.
    destruct (fst (redactEvent (clientPlatform this) room (event_id event)
                               reason w)) as [[]|error];
      cbn [isError app collect libraryLogOf redactionOf filter snd map].
    + split; [|reflexivity]. constructor; [left; eauto | exact Hall].
    + split; [|reflexivity].
      constructor; [left; eauto|]. constructor; [now right | exact Hall].
Qed.

(** The trace of [completePrompt]. *)
Lemma completePrompt_trace (room : StringRoomID) (eventID : StringEventID)
  (reason : option string) (w : World) :
  let run := completePrompt this room eventID reason w in
  exists sweep,
    trace run = ForEachRelation room eventID "m.annotation" "m.reaction" :: sweep /\
    Forall (fun e => (exists target result,
                         e = RedactEvent room target reason result) \/
                     e = LibraryLog LogError TaskFailed)
           sweep /\
    libraryLogs sweep
    = map (fun _ => (LogError, TaskFailed))
          (filter (fun r => isError (snd r)) (redactions sweep)) /\
    fetches sweep = [] /\ sends sweep = [] /\ emits sweep = [] /\ logs sweep = [].
Proof.
  cbv zeta. rewrite completePrompt_run. cbv zeta. cbn [trace].
  eexists. split; [reflexivity|].
  destruct (forEachEvent_only_redacts room reason
              (fst (fst (forEachRelation (clientPlatform this) room eventID
                                         "m.annotation" "m.reaction" w)))
              (snd (forEachRelation (clientPlatform this) room eventID
                                    "m.annotation" "m.reaction" w)))
    as (Hall & Hlogs).
  cbv zeta in Hall, Hlogs.
  split; [exact Hall|]. split; [exact Hlogs|].
  clear Hlogs.
  induction Hall as [|e sweep [(target & result & ->)| ->] _ IH]; [cbn; auto|..];
    cbn; exact IH.
Qed.

(** X11. The effects of [completePrompt] are one enumeration followed by
    redactions, each for the given room and with the given reason, and one
    line that the library writes at error level for each redaction that
    failed.  It fetches nothing, sends nothing, dispatches nothing and
    logs nothing of its own, whatever the transport answers. *)
Theorem completePrompt_effects (room : StringRoomID) (eventID : StringEventID)
  (reason : option string) (w : World) :
  let run := completePrompt this room eventID reason w in
  exists sweep,
    trace run = ForEachRelation room eventID "m.annotation" "m.reaction" :: sweep /\
    Forall (fun e => (exists target result,
                         e = RedactEvent room target reason result) \/
                     e = LibraryLog LogError TaskFailed)
           sweep /\
    libraryLogs sweep
    = map (fun _ => (LogError, TaskFailed))
          (filter (fun r => isError (snd r)) (redactions sweep)) /\
    fetches sweep = [] /\ sends sweep = [] /\ emits sweep = [] /\ logs sweep = [].
Proof. apply completePrompt_trace. Qed.

(** How the loop of [addReactionsToEvent] logs. *)
Lemma addReactionsToEvent_loop_logs (room : StringRoomID) (eventID : StringEventID)
  (keys : list string) :
  forall w : World,
    let run := addReactionsToEvent_loop this room eventID keys w in
    match outcome run with
    | Returned (Ok _) => logs (trace run) = []
    | Returned (Err _) =>
        logs (trace run)
        = [(LogError, "Could not add reaction to event " ++ eventID)]
    | Threw _ => False
    end /\
    fetches (trace run) = [] /\ emits (trace run) = [] /\
    enumerations (trace run) = [].
Proof.
  induction keys as [|key rest IH]; intros w; cbv zeta.
  - cbn. auto.
  - rewrite addReactionsToEvent_loop_step. cbv zeta.
    destruct (fst (sendReaction (clientPlatform this) room eventID key w))
      as [sentID|error].
    + cbn [outcome trace]. apply IH.
    + cbn. auto.
Qed.

(** X12. [addReactionsToEvent] logs nothing when it succeeds and exactly
    one line, at error level, when it fails; it never fetches, dispatches
    or enumerates. *)
Theorem addReactionsToEvent_logs_failure (room : StringRoomID)
  (eventID : StringEventID) (entries : ItemByReactionKey) (w : World) :
  let run := addReactionsToEvent this room eventID entries w in
  match outcome run with
  | Returned (Ok _) => logs (trace run) = []
  | Returned (Err _) =>
      logs (trace run)
      = [(LogError, "Could not add reaction to event " ++ eventID)]
  | Threw _ => False
  end /\
  fetches (trace run) = [] /\ emits (trace run) = [] /\
  enumerations (trace run) = [].
Proof. apply addReactionsToEvent_loop_logs. Qed.

(** X13. [cancelPrompt] enumerates and redacts exactly as [completePrompt]
    does with the effective reason, whether or not the sweep succeeds; on
    top of that it sends at most one reaction, and it never fetches or
    dispatches. *)
Theorem cancelPrompt_redacts_like_completePrompt (promptEvent : RoomEvent)
  (cancelReason : option string) (w : World) :
  let reason :=
    match cancelReason with Some reason => reason | None => "prompt cancelled" end in
  let sweep :=
    completePrompt this (room_id promptEvent) (event_id promptEvent) (Some reason) w in
  let run := cancelPrompt this promptEvent cancelReason w in
  redactions (trace run) = redactions (trace sweep) /\
  enumerations (trace run) = enumerations (trace sweep) /\
  length (sends (trace run)) <= 1 /\
  fetches (trace run) = [] /\
  emits (trace run) = [].
Proof.
  cbv zeta. rewrite cancelPrompt_run. cbv zeta.
  set (reason := match cancelReason with Some r => r | None => "prompt cancelled" end).
  pose proof (completePrompt_sends_nothing this (room_id promptEvent)
                (event_id promptEvent) (Some reason) w) as Hsends.
  destruct (completePrompt_trace (room_id promptEvent)
              (event_id promptEvent) (Some reason) w)
    as (sweep & Htrace & _ & _ & Hfetch & _ & Hemit & _).
  cbv zeta in Htrace.
  assert (Hf : fetches (trace (completePrompt this (room_id promptEvent)
                                 (event_id promptEvent) (Some reason) w)) = [])
    by (rewrite Htrace; exact Hfetch).
  assert (He : emits (trace (completePrompt this (room_id promptEvent)
                               (event_id promptEvent) (Some reason) w)) = [])
    by (rewrite Htrace; exact Hemit).
  destruct (outcome (completePrompt this (room_id promptEvent)
                       (event_id promptEvent) (Some reason) w))
    as [[[]|error]|e].
  - cbn [trace]. unfold redactions, enumerations, sends, fetches, emits in *.
    rewrite !collect_app, Hsends, Hf, He.
    destruct (isError _); cbn; rewrite ?app_nil_r; auto.
  - rewrite Hsends, Hf, He. cbn. auto.
  - rewrite Hsends, Hf, He. cbn. auto.
Qed.

End Sweeps.

(** ** Result markers *)

(** X14. [reactToEventWithResult] asks the transport for exactly one
    reaction to the event, ✅ for a success and ❌ for a failure, and
    answers with what the transport said.  Neither symbol is one of the
    strings [completePrompt] compares with: on a reaction that bears it
    the callback of the sweep asks for its redaction. *)
Theorem reactToEventWithResult_marks {World A : Type}
  (roomReactionSender : ClientPlatform World) (event : RoomEvent)
  (result : ActionResult A) (w : World) :
  let run := reactToEventWithResult roomReactionSender event result w in
  let emote := if isError result then "❌" else "✅" in
  let answer :=
    sendReaction roomReactionSender (room_id event) (event_id event) emote w in
  run = mkRun (Returned (fst answer)) (snd answer)
          [SendReaction (room_id event) (event_id event) emote (fst answer)] /\
  isTerminalMarker (VString emote) = false /\
  forall (this : MatrixReactionHandler World) (room : StringRoomID)
         (reason : option string) (reaction : RoomEvent) (w' : World),
    relationKey reaction = VString emote ->
    redactions (trace (completePrompt_forEachCB this room reason reaction w'))
    = [(room, event_id reaction, reason,
        fst (redactEvent (clientPlatform this) room (event_id reaction) reason w'))].
Proof.
  cbv zeta. unfold reactToEventWithResult, isOk.
  destruct (isError result); cbn [negb].
  - split; [reflexivity|]. split; [reflexivity|].
    intros this room reason reaction w' Hkey.
    unfold completePrompt_forEachCB. rewrite Hkey.
    change (isTerminalMarker (VString "❌")) with false. cbv iota.
    unfold voidTask, bind, call_redactEvent, perform, ret. cbn.
    destruct (fst (redactEvent _ _ _ _ _)); reflexivity.
  - split; [reflexivity|]. split; [reflexivity|].
    intros this room reason reaction w' Hkey.
    unfold completePrompt_forEachCB. rewrite Hkey.
    change (isTerminalMarker (VString "✅")) with false. cbv iota.
    unfold voidTask, bind, call_redactEvent, perform, ret. cbn.
    destruct (fst (redactEvent _ _ _ _ _)); reflexivity.
Qed.

(** ** Commands by source table *)

Lemma tableGet_None (table : CommandTable) (m : CommandsBySourceTable) :
  tableGet table m = None <-> ~ In table (map fst m).
Proof.
  induction m as [|[t group] m IH]; simpl; [tauto|].
  destruct (Nat.eqb_spec t table) as [->|Hneq].
  - split; [discriminate|]. intros H. exfalso. apply H. now left.
  - rewrite IH. tauto.
Qed.

Lemma tablePush_keys (table : CommandTable) (command : CommandTableEntry)
  (m : CommandsBySourceTable) :
  map fst (tablePush table command m) = map fst m.
Proof.
  induction m as [|[t group] m IH]; simpl; [reflexivity|].
  destruct (Nat.eqb t table); simpl; [reflexivity | now rewrite IH].
Qed.

Lemma tableGet_tablePush (table table' : CommandTable)
  (command : CommandTableEntry) (m : CommandsBySourceTable) :
  tableGet table (tablePush table' command m) =
  if Nat.eqb table' table
  then option_map (fun group => (group ++ [command])%list) (tableGet table m)
  else tableGet table m.
Proof.
  induction m as [|[t group] m IH]; simpl.
  - now destruct (Nat.eqb table' table).
  - destruct (Nat.eqb_spec t table') as [Heq|Hneq]; simpl;
      destruct (Nat.eqb_spec t table) as [Heq'|Hneq'];
      destruct (Nat.eqb_spec table' table) as [Heq''|Hneq''];
      subst; simpl; try congruence; try reflexivity.
Qed.

Lemma tableGet_app (table : CommandTable) (m m' : CommandsBySourceTable) :
  tableGet table (m ++ m')%list =
  match tableGet table m with
  | Some group => Some group
  | None => tableGet table m'
  end.
Proof.
  induction m as [|[t group] m IH]; simpl; [reflexivity|].
  destruct (Nat.eqb t table); [reflexivity | exact IH].
Qed.

Lemma tableGet_groupCommand (table : CommandTable)
  (command : CommandTableEntry) (m : CommandsBySourceTable) :
  tableGet table (groupCommand m command) =
  if Nat.eqb (sourceTable command) table
  then Some (match tableGet table m with
             | Some group => (group ++ [command])%list
             | None => [command]
             end)
  else tableGet table m.
Proof.
  unfold groupCommand.
  destruct (tableGet (sourceTable command) m) as [group|] eqn:Hget.
  - rewrite tableGet_tablePush.
    destruct (Nat.eqb_spec (sourceTable command) table) as [<-|_]; [|reflexivity].
    now rewrite Hget.
  - rewrite tableGet_app. simpl.
    destruct (Nat.eqb_spec (sourceTable command) table) as [<-|_].
    + now rewrite Hget.
    + now destruct (tableGet table m).
Qed.

Lemma tableGet_fold (allCommands : list CommandTableEntry) :
  forall (m : CommandsBySourceTable) (table : CommandTable),
    tableGet table (fold_left groupCommand allCommands m) =
    match tableGet table m,
          filter (fun c => Nat.eqb (sourceTable c) table) allCommands with
    | Some group, more => Some (group ++ more)%list
    | None, [] => None
    | None, more => Some more
    end.
Proof.
  induction allCommands as [|command rest IH]; intros m table; simpl.
  - destruct (tableGet table m); [now rewrite app_nil_r | reflexivity].
  - rewrite IH, tableGet_groupCommand.
    destruct (Nat.eqb (sourceTable command) table).
    + destruct (tableGet table m); [now rewrite <- app_assoc | reflexivity].
    + reflexivity.
Qed.

Lemma groupCommand_NoDup (command : CommandTableEntry) (m : CommandsBySourceTable) :
  NoDup (map fst m) -> NoDup (map fst (groupCommand m command)).
Proof.
  intros Hnodup. unfold groupCommand.
  destruct (tableGet (sourceTable command) m) eqn:Hget.
  - now rewrite tablePush_keys.
  - apply tableGet_None in Hget. rewrite map_app. simpl.
    apply NoDup_app; [exact Hnodup | repeat constructor; intros [] | ].
    intros t Hin [<-|[]]. contradiction.
Qed.

Lemma tablePush_Permutation (command : CommandTableEntry) (m : CommandsBySourceTable) :
  In (sourceTable command) (map fst m) ->
  Permutation (concat (map snd (tablePush (sourceTable command) command m)))
              (command :: concat (map snd m)).
Proof.
  induction m as [|[t group] m IH]; simpl; [contradiction|].
  destruct (Nat.eqb_spec t (sourceTable command)) as [->|Hneq]; simpl.
  - intros _. rewrite <- app_assoc. simpl.
    apply Permutation_sym, Permutation_middle.
  - intros [H|H]; [contradiction|].
    rewrite (IH H). apply Permutation_sym, Permutation_middle.
Qed.

Lemma groupCommand_Permutation (command : CommandTableEntry) (m : CommandsBySourceTable) :
  Permutation (concat (map snd (groupCommand m command)))
              (command :: concat (map snd m)).
Proof.
  unfold groupCommand.
  destruct (tableGet (sourceTable command) m) eqn:Hget.
  - apply tablePush_Permutation.
    destruct (in_dec Nat.eq_dec (sourceTable command) (map fst m)) as [H|H];
      [exact H|]. apply tableGet_None in H. congruence.
  - rewrite map_app, concat_app. simpl.
    apply Permutation_sym, Permutation_cons_append.
Qed.

Lemma fold_groupCommand_invariants (allCommands : list CommandTableEntry) :
  forall m : CommandsBySourceTable,
    NoDup (map fst m) ->
    NoDup (map fst (fold_left groupCommand allCommands m)) /\
    Permutation (concat (map snd (fold_left groupCommand allCommands m)))
                (concat (map snd m) ++ allCommands)%list.
Proof.
  induction allCommands as [|command rest IH]; intros m Hnodup; simpl.
  - split; [exact Hnodup | now rewrite app_nil_r].
  - destruct (IH _ (groupCommand_NoDup command m Hnodup)) as (Hkeys & Hperm).
    split; [exact Hkeys|].
    rewrite Hperm, groupCommand_Permutation. apply Permutation_middle.
Qed.

(** X15. [sortCommandsBySourceTable] files every command under its source
    table and nowhere else: each table that has commands appears once,
    its group holds exactly the commands of that table in their original
    order, a table without commands does not appear, and no command is
    lost or repeated. *)
Theorem sortCommandsBySourceTable_groups (allCommands : list CommandTableEntry) :
  let groups := sortCommandsBySourceTable allCommands in
  NoDup (map fst groups) /\
  (forall table,
     tableGet table groups =
     match filter (fun c => Nat.eqb (sourceTable c) table) allCommands with
     | [] => None
     | group => Some group
     end) /\
  Permutation (concat (map snd groups)) allCommands.
Proof.
  cbv zeta. unfold sortCommandsBySourceTable.
  destruct (fold_groupCommand_invariants allCommands [] (NoDup_nil _))
    as (Hkeys & Hperm).
  repeat split; [exact Hkeys | | exact Hperm].
  intros table. rewrite tableGet_fold. reflexivity.
Qed.

(** ** The added properties in the sample room *)

Lemma handleEvent_fetch_failure_dropped_witness :
  handleEvent ReactionEvent (handler platform) managementRoom
    (reaction "$a" alice "$gone" "✅") 0
  = mkRun (Returned tt) 1
      [GetEvent managementRoom "$gone";
       Log LogError "Unable to get annotated event"].
Proof.
  apply (handleEvent_fetch_failure_dropped ReactionEvent (handler platform)
           managementRoom (reaction "$a" alice "$gone" "✅")
           "$gone" "✅" 0 "M_NOT_FOUND").
  - sample_relevant.
  - reflexivity.
Defined.

Lemma handleEvent_emit_provenance_witness :
  exists target symbol annotated annotation,
    relevant ReactionEvent (handler platform) managementRoom
      (reaction "$a" alice "$vote" "✅") target symbol /\
    fst (getEvent (clientPlatform (handler platform)) managementRoom target 0)
    = Ok annotated /\
    Decode_ReactionAnnotatedContent (content annotated) = Ok annotation /\
    hasAnnotationShape (content annotated) /\
    "onVote" = name annotation /\
    "✅" = symbol /\
    VUndefined = additional_context annotation /\
    [("✅", VString "accept"); ("❌", VString "reject")]
    = Map_new (Object_entries (reaction_map annotation)).
Proof.
  apply (handleEvent_emit_provenance ReactionEvent (handler platform)
           managementRoom (reaction "$a" alice "$vote" "✅") 0 "onVote"
           (mkListenerArguments "✅" (VString "accept") VUndefined
              [("✅", VString "accept"); ("❌", VString "reject")]
              (ResultObject (Ok voteEvent)))).
  left. reflexivity.
Defined.

Lemma createAnnotation_decodes_witness :
  exists decoded,
    Decode_ReactionAnnotatedContent (content Prompts.choicesEvent) = Ok decoded /\
    name decoded = "onChoice" /\
    additional_context decoded
    = VObject [("target", VString "@mallory:example.org")] /\
    reaction_map decoded
    = stringEntries (createItemizedReactionMap Prompts.choices).
Proof.
  destruct (createAnnotation_decodes "onChoice"
              (createItemizedReactionMap Prompts.choices)
              (Some [("target", VString "@mallory:example.org")])
              [("msgtype", VString "m.notice")] [])
    as (decoded & Hdecode & Hname & Hcontext & _ & _ & Horder).
  - reflexivity.
  - vm_compute. repeat constructor; cbn; intuition discriminate.
  - exists decoded. repeat split; try assumption.
    apply Horder. intros k Hk. vm_compute in Hk.
    repeat (destruct Hk as [<-|Hk]; [reflexivity|]). contradiction.
Defined.

Lemma annotated_prompt_dispatches_witness :
  let run :=
    handleEvent ReactionEvent Prompts.handler managementRoom
      (reaction "$a" alice "$choices" (numberToEmoji 3)) 0 in
  outcome run = Returned tt /\
  logs (trace run) = [] /\
  exists arguments,
    emits (trace run) = [("onChoice", arguments)] /\
    key arguments = numberToEmoji 3 /\
    item arguments = VString "mute" /\
    additionalContext arguments
    = VObject [("target", VString "@mallory:example.org")] /\
    Permutation (reactionMap arguments)
                (stringEntries (createItemizedReactionMap Prompts.choices)) /\
    (forall k, ownProperty k (reactionMap arguments)
               = option_map VString
                   (ownProperty k (createItemizedReactionMap Prompts.choices))).
Proof.
  apply (annotated_prompt_dispatches ReactionEvent Prompts.handler
           managementRoom (reaction "$a" alice "$choices" (numberToEmoji 3))
           "$choices" (numberToEmoji 3) 0 Prompts.choicesEvent "onChoice"
           (createItemizedReactionMap Prompts.choices)
           (Some [("target", VString "@mallory:example.org")])
           [("msgtype", VString "m.notice")] [] "mute").
  - sample_relevant.
  - reflexivity.
  - reflexivity.
  - reflexivity.
  - vm_compute. repeat constructor; cbn; intuition discriminate.
  - reflexivity.
Defined.

Lemma createItemizedReactionMap_resolves_witness :
  ownProperty (numberToEmoji 3) (createItemizedReactionMap Prompts.choices)
  = Some "mute".
Proof.
  apply (createItemizedReactionMap_resolves Prompts.choices (numberToEmoji 3) "mute").
  - apply N.leb_le. reflexivity.
  - exists 2. split; reflexivity.
Defined.

Lemma itemized_prompt_dispatches_witness :
  let run :=
    handleEvent ReactionEvent Prompts.handler managementRoom
      (reaction "$a" alice "$choices" (numberToEmoji 3)) 0 in
  outcome run = Returned tt /\
  exists arguments,
    emits (trace run) = [("onChoice", arguments)] /\
    key arguments = numberToEmoji 3 /\
    item arguments = VString "mute" /\
    additionalContext arguments
    = VObject [("target", VString "@mallory:example.org")] /\
    reactionMap arguments
    = stringEntries (createItemizedReactionMap Prompts.choices).
Proof.
  apply (itemized_prompt_dispatches ReactionEvent Prompts.handler
           managementRoom (reaction "$a" alice "$choices" (numberToEmoji 3))
           "$choices" 0 Prompts.choicesEvent "onChoice" Prompts.choices
           (Some [("target", VString "@mallory:example.org")])
           [("msgtype", VString "m.notice")] [] 2 "mute").
  - apply N.leb_le. reflexivity.
  - sample_relevant.
  - reflexivity.
  - reflexivity.
  - reflexivity.
  - reflexivity.
Defined.


Lemma completePrompt_redacts_own_symbols_witness :
  In (managementRoom, "$c2", Some "done")
     (redactionRequests
        (trace (completePrompt Prompts.handler managementRoom "$choices"
                  (Some "done") 0))) /\
  In (managementRoom, "$c3", Some "done")
     (redactionRequests
        (trace (completePrompt Prompts.handler managementRoom "$choices"
                  (Some "done") 0))).
Proof.
  split.
  - apply (completePrompt_redacts_own_symbols Prompts.handler managementRoom
             "$choices" (Some "done") 0
             (reaction "$c2" alice "$choices" (numberToEmoji 2))).
    + right; left. reflexivity.
    + left. exists 2%N. split; [apply N.leb_le|]; reflexivity.
  - apply (completePrompt_redacts_own_symbols Prompts.handler managementRoom
             "$choices" (Some "done") 0
             (reaction "$c3" bot "$choices" ("üö´ Cancelled by " ++ bot))).
    + right; right; left. reflexivity.
    + right. exists Prompts.choicesEvent. reflexivity.
Defined.

Lemma completePrompt_redacts_keyless_witness :
  In (managementRoom, "$r4", Some "done")
     (redactionRequests
        (trace (completePrompt (handler platform) managementRoom "$vote"
                  (Some "done") 0))).
Proof.
  apply (completePrompt_redacts_keyless (handler platform) managementRoom
           "$vote" (Some "done") 0 (mkRoomEvent managementRoom "$r4" alice [])).
  - right; right; right; left. reflexivity.
  - intros symbol Hkey. vm_compute in Hkey. discriminate Hkey.
Defined.

(** Completing the sample prompt: the choices, the notice and the ✅ are
    redacted; the reaction that bears the first string of the source's
    comparison stays. *)
Example completePrompt_choices :
  redactionRequests
    (trace (completePrompt Prompts.handler managementRoom "$choices"
              (Some "done") 0))
  = [ (managementRoom, "$c1", Some "done");
      (managementRoom, "$c2", Some "done");
      (managementRoom, "$c3", Some "done");
      (managementRoom, "$c4", Some "done") ].
Proof. reflexivity. Qed.

(** On the transport whose redactions fail, the library writes one line
    for each of the four. *)
Example completePrompt_failed_redactions :
  libraryLogs
    (trace (completePrompt (handler (flakyPlatform 0)) managementRoom "$vote"
              (Some "done") 0))
  = [ (LogError, TaskFailed); (LogError, TaskFailed);
      (LogError, TaskFailed); (LogError, TaskFailed) ].
Proof. reflexivity. Qed.

(** The three sample commands fall into two groups. *)
Example sortCommandsBySourceTable_sample :
  sortCommandsBySourceTable Prompts.commands
  = [ (1, [mkCommandTableEntry 1 ["ban"]; mkCommandTableEntry 1 ["unban"]]);
      (2, [mkCommandTableEntry 2 ["rooms"; "add"]]) ].
Proof. reflexivity. Qed.
